(** * webscraper: a domain-scoped asynchronous crawler

    A shallow embedding of [webscraper.py]: the file naming of
    [FileOperation], the domain filter of [URLcheck], and the coroutines
    [Scraper.fetch], [Scraper.scrape] and [Scraper.download_pdf] running on
    a cooperative event loop.

    Python strings are [string]; the visited-links dictionary is a
    [gmap string string]; the set of links of a page is a [gset string].
    Effects (the dictionary, printing, files, requests) are threaded
    through a state-and-exception monad.  The functions of [urllib] and
    [bs4] are fields of a [Platform] record, so that every theorem holds for
    whatever these libraries compute. *)

From Stdlib Require Import ZArith Ascii.
From stdpp Require Import gmap strings list fin_maps.

Local Open Scope Z_scope.

(** ** Python string methods *)

Module Str.

Definition is_empty (s : string) : bool :=
  match s with EmptyString => true | String _ _ => false end.

(** [s.startswith(p)] *)
Fixpoint startswith (p s : string) : bool :=
  match p, s with
  | EmptyString, _ => true
  | String a p', String b s' => Ascii.eqb a b && startswith p' s'
  | String _ _, EmptyString => false
  end.

Fixpoint drop (n : nat) (s : string) : string :=
  match n, s with
  | O, _ => s
  | S _, EmptyString => EmptyString
  | S n', String _ s' => drop n' s'
  end.

(** [s.endswith(p)]: the last [len(p)] characters of [s] are [p] *)
Definition endswith (s p : string) : bool :=
  (String.length p <=? String.length s)%nat &&
  String.eqb (drop (String.length s - String.length p) s) p.

(** [p in s] for strings *)
Fixpoint contains (p s : string) : bool :=
  startswith p s ||
  match s with
  | EmptyString => false
  | String _ s' => contains p s'
  end.

(** [c in s] for a single character *)
Fixpoint mem (c : ascii) (s : string) : bool :=
  match s with
  | EmptyString => false
  | String a s' => Ascii.eqb a c || mem c s'
  end.

Definition lower_ascii (c : ascii) : ascii :=
  let n := N_of_ascii c in
  if ((65 <=? n) && (n <=? 90))%N then ascii_of_N (n + 32) else c.

(** [s.lower()] on ASCII text *)
Fixpoint lower (s : string) : string :=
  match s with
  | EmptyString => EmptyString
  | String a s' => String (lower_ascii a) (lower s')
  end.

(** [s.lstrip(c)], [s.rstrip(c)] and [s.strip(c)] for a one-character set *)
Fixpoint lstrip (c : ascii) (s : string) : string :=
  match s with
  | EmptyString => EmptyString
  | String a s' => if Ascii.eqb a c then lstrip c s' else s
  end.

Fixpoint rstrip (c : ascii) (s : string) : string :=
  match s with
  | EmptyString => EmptyString
  | String a s' =>
      let r := rstrip c s' in
      if Ascii.eqb a c && is_empty r then EmptyString else String a r
  end.

Definition strip (c : ascii) (s : string) : string := rstrip c (lstrip c s).

(** [s.replace(old, new)] for a non-empty [old]: occurrences are taken
    from the left and do not overlap.  The fuel counts the characters
    still to scan. *)
Fixpoint replace_fuel (fuel : nat) (old new s : string) : string :=
  match fuel with
  | O => s
  | S fuel' =>
      match s with
      | EmptyString => EmptyString
      | String a s' =>
          if startswith old s
          then new +:+ replace_fuel fuel' old new (drop (String.length old) s)
          else String a (replace_fuel fuel' old new s')
      end
  end.

Definition replace (old new s : string) : string :=
  replace_fuel (String.length s) old new s.

(** the part of [s] before the first character of [stop], and the rest
    starting at that character ([s[:i]], [s[i:]] with [i] the first hit) *)
Fixpoint break_at (stop : string) (s : string) : string * string :=
  match s with
  | EmptyString => (EmptyString, EmptyString)
  | String a s' =>
      if mem a stop then (EmptyString, s)
      else let '(l, r) := break_at stop s' in (String a l, r)
  end.

(** [s.split(c, 1)] when [c] occurs in [s]; [(s, "")] otherwise *)
Definition split_once (c : ascii) (s : string) : string * string :=
  let '(l, r) := break_at (String c EmptyString) s in (l, drop 1 r).

End Str.

(** ** Exceptions and the effect monad *)

(** A raised Python exception, identified by its message.  Every exception
    of the model is an instance of [Exception]: the ones raised by
    [urllib], [bs4], [aiohttp] and [open]. *)
Definition Exn : Type := string.

Inductive Outcome (A : Type) : Type :=
| Ok (a : A)
| Raise (e : Exn).
Arguments Ok {A} a.
Arguments Raise {A} e.

(** What [print] receives. *)
Inductive Msg : Type :=
| Visiting (url : string)
| ProcessingError (url : string) (e : Exn)
| PdfFailed (url : string) (e : Exn).

(** The text of a printed message (the f-strings of lines 154, 180, 198). *)
Definition render (m : Msg) : string :=
  match m with
  | Visiting url => "Visiting: " +:+ url
  | ProcessingError url e => "An error occurred while processing " +:+ url +:+ ": " +:+ e
  | PdfFailed url e => "Failed to download PDF " +:+ url +:+ ": " +:+ e
  end.

(** Everything the program does to the outside, in order. *)
Inductive Event : Type :=
| EPrint (m : Msg)
| EGet (url : string)
| EWriteText (path content : string)
| EWritePdf (path content : string)
| EAppend (path text : string)
| ESave (path : string) (ledger : gmap string string)
| ESleep (delay : Z).

(** The mutable state: [file_op.visitedlinks] and the effects so far. *)
Record World : Type := mkWorld {
  visitedlinks : gmap string string;
  events : list Event
}.

Definition M (A : Type) : Type := World -> Outcome A * World.

Definition ret {A} (a : A) : M A := fun w => (Ok a, w).

Definition bind {A B} (m : M A) (k : A -> M B) : M B :=
  fun w => match m w with
           | (Ok a, w') => k a w'
           | (Raise e, w') => (Raise e, w')
           end.

Definition raise {A} (e : Exn) : M A := fun w => (Raise e, w).

(** [try: body except Exception as e: handler(e)] *)
Definition try_except {A} (body : M A) (handler : Exn -> M A) : M A :=
  fun w => match body w with
           | (Ok a, w') => (Ok a, w')
           | (Raise e, w') => handler e w'
           end.

Definition lift {A} (o : Outcome A) : M A := fun w => (o, w).

Definition emit (e : Event) : M unit :=
  fun w => (Ok tt, mkWorld (visitedlinks w) (events w ++ [e])).

Definition get_ledger : M (gmap string string) :=
  fun w => (Ok (visitedlinks w), w).

(** [self.file_op.visitedlinks[url] = v] *)
Definition set_status (url v : string) : M unit :=
  fun w => (Ok tt, mkWorld (<[url := v]> (visitedlinks w)) (events w)).

Global Instance M_ret : MRet M := @ret.
Global Instance M_bind : MBind M := fun A B k m => bind m k.

(** ** The libraries and the configuration *)

(** The six components of [urlparse(url)]. *)
Record ParseResult : Type := mkParse {
  scheme : string;
  netloc : string;
  path : string;
  params : string;
  query : string;
  fragment : string
}.

(** The library calls of the program.  [soup] is a parsed document;
    [open_ok p] tells whether [open(p, mode)] succeeds for writing. *)
Class Platform : Type := {
  urlparse : string -> Outcome ParseResult;
  urljoin : string -> string -> Outcome string;
  soup : Type;
  BeautifulSoup : string -> Outcome soup;
  find_all_a_href : soup -> list string;
  extract_all : list string -> soup -> soup;
  get_text : soup -> Outcome string;
  find_main : soup -> option soup;
  get_text_lines : soup -> Outcome string;
  open_ok : string -> bool
}.

(** The module-level setup (lines 204-212). *)
Class Setup : Type := {
  mainurl : string;
  domain : string;
  data_folder : string;
  status_file : string;
  request_delay : Z
}.

(** [os.path.join(a, b)] on POSIX *)
Definition path_join (a b : string) : string :=
  if Str.startswith "/" b then b
  else if Str.is_empty a || Str.endswith a "/" then a +:+ b
  else a +:+ "/" +:+ b.

Global Instance Outcome_ret : MRet Outcome := @Ok.
Global Instance Outcome_bind : MBind Outcome :=
  fun A B k o => match o with Ok a => k a | Raise e => Raise e end.

Definition newline : string := String "010"%char EmptyString.

(** What the server (or the transport) answers to one [session.get]: a
    response with its status and the outcome of reading its body
    ([response.text()] or [response.read()]), or an exception raised by the
    transport. *)
Inductive Reply : Type :=
| Response (status : Z) (body : Outcome string)
| TransportError (e : Exn).

(** The coroutine objects a page appends to [tasks]. *)
Inductive Coroutine : Type :=
| CScrape (url : string)
| CDownload (url : string).

(** Where a resumed [scrape] stops next. *)
Inductive Next : Type :=
| Return
| Gather (tasks : list Coroutine)
| Sleep.

Section Program.
Context {L : Platform} {S : Setup}.

(** *** class FileOperation *)

(** [open(p, mode)] for writing or appending *)
Definition open_file (p : string) : M unit :=
  if open_ok p then ret tt else raise ("OSError: " +:+ p).

(** [load_status]: the stored dictionary, or an empty one without a file *)
Definition load_status (disk : option (gmap string string)) : gmap string string :=
  match disk with
  | Some ledger => ledger
  | None => ∅
  end.

Definition save_status : M unit :=
  open_file status_file ;;
  ledger ← get_ledger;
  emit (ESave status_file ledger).

Definition create_file (url : string) : Outcome string :=
  parsed_url ← urlparse url;
  let path := Str.replace "/" "_" (Str.strip "/" (path parsed_url)) in
  let path := if Str.is_empty path then "index" else path in
  Ok (path_join data_folder (netloc parsed_url +:+ "_" +:+ path +:+ ".txt")).

(** the name [write_pdf] opens *)
Definition pdf_filename (url : string) : Outcome string :=
  filename ← create_file url;
  Ok (Str.replace ".txt" ".pdf" filename).

(** [write_pdf] and [write_text]: the name is derived and the file is
    opened, either of which may raise; the write into the opened file is
    taken to succeed (an encoding or disk error at that point, which would
    leave the file empty or cut short, is outside the model). *)
Definition write_pdf (url content : string) : M unit :=
  filename ← lift (pdf_filename url);
  open_file filename ;;
  emit (EWritePdf filename content).

Definition write_text (url content : string) : M unit :=
  filename ← lift (create_file url);
  open_file filename ;;
  emit (EWriteText filename content).

Definition add_to_extralinks (url : string) : M unit :=
  open_file "extralinks.txt" ;;
  emit (EAppend "extralinks.txt" (url +:+ newline)).

(** *** class URLcheck *)

Definition check_link (url : string) : Outcome bool :=
  parsed_url ← urlparse url;
  Ok (bool_decide (netloc parsed_url = domain)).

(** the [for a_tag in ...] loop of [extract_links], with the set built so far *)
Fixpoint extract_links_loop (hrefs : list string) (base_url : string)
    (links : gset string) : M (gset string) :=
  match hrefs with
  | [] => ret links
  | href :: rest =>
      full_url ← lift (urljoin base_url href);
      inside ← lift (check_link full_url);
      if inside : bool
      then extract_links_loop rest base_url (links ∪ {[full_url]})
      else add_to_extralinks full_url ;; extract_links_loop rest base_url links
  end.

Definition extract_links (page : soup) (base_url : string) : M (gset string) :=
  extract_links_loop (find_all_a_href page) base_url ∅.

(** *** class Scraper *)

(** [fetch] up to its suspension in [session.get] *)
Definition fetch_request (url : string) : M unit := emit (EGet url).

(** [fetch] from the answer on (lines 129-132) *)
Definition fetch (r : Reply) : M (option string) :=
  match r with
  | TransportError e => raise e
  | Response status body =>
      if status =? 200 then content ← lift body; ret (Some content)
      else ret None
  end.

Definition process_page (page : soup) (url : string) : M unit :=
  let page := extract_all ["script"; "style"; "nav"; "header"; "footer"; "img"] page in
  main_text ← lift (get_text page);
  main_text ← match find_main page with
              | Some main_content => lift (get_text_lines main_content)
              | None => ret main_text
              end;
  write_text url main_text.

(** lines 150-153: the check and the mark under the lock *)
Definition claim (url : string) : M bool :=
  ledger ← get_ledger;
  match ledger !! url with
  | Some _ => ret false
  | None => set_status url "pending" ;; ret true
  end.

(** lines 171-176: what one link contributes to [tasks] *)
Definition route (link : string) : option Coroutine :=
  if existsb (fun substring => Str.contains substring (Str.lower link)) ["lxml"]
  then None
  else if Str.endswith (Str.lower link) ".pdf" then Some (CDownload link)
  else Some (CScrape link).

Definition make_tasks (links : list string) : list Coroutine := omap route links.

(** [scrape] from its start to the suspension in [fetch]; [false] when the
    early return of line 152 is taken *)
Definition scrape_begin (url : string) : M bool :=
  claimed ← claim url;
  if claimed : bool
  then emit (EPrint (Visiting url)) ;; fetch_request url ;; ret true
  else ret false.

(** lines 166-176 *)
Definition scrape_page (url content : string) : M (list Coroutine) :=
  page ← lift (BeautifulSoup content);
  links ← extract_links page url;
  process_page page url ;;
  ret (make_tasks (elements links)).

(** lines 179-182 when the [try] block raised *)
Definition scrape_except (url : string) (e : Exn) : M Next :=
  emit (EPrint (ProcessingError url e)) ;;
  save_status ;;
  ret Return.

Definition scrape_sleep : M Next :=
  emit (ESleep request_delay) ;; ret Sleep.

(** [scrape] resumed with the answer to its request (lines 156-177) *)
Definition scrape_fetched (url : string) (r : Reply) : M Next :=
  content ← fetch r;
  match content with
  | None => set_status url "failed" ;; ret Return
  | Some content =>
      set_status url "success" ;;
      try_except
        (tasks ← scrape_page url content;
         match tasks with
         | [] => scrape_sleep
         | _ :: _ => ret (Gather tasks)
         end)
        (scrape_except url)
  end.

(** [scrape] resumed by [asyncio.gather] (lines 177-182) *)
Definition scrape_gathered (url : string) (result : Outcome unit) : M Next :=
  match result with
  | Ok _ => scrape_sleep
  | Raise e => scrape_except url e
  end.

(** [scrape] resumed after [asyncio.sleep] (line 182) *)
Definition scrape_woken : M unit := save_status.

(** [download_pdf] up to its suspension in [session.get] *)
Definition download_begin (url : string) : M unit := emit (EGet url).

(** [download_pdf] resumed with the answer (lines 190-200) *)
Definition download_pdf (url : string) (r : Reply) : M unit :=
  try_except
    (match r with
     | TransportError e => raise e
     | Response status body =>
         if status =? 200
         then content ← lift body; write_pdf url content ;; set_status url "success"
         else set_status url "failed"
     end)
    (fun e => emit (EPrint (PdfFailed url e)) ;; set_status url "failed").

End Program.

(** ** The event loop *)

(** A task of the loop: not yet started, suspended at one of the [await]s
    that yield ([session.get], [asyncio.gather], [asyncio.sleep]), or done.
    Between two suspensions a task runs alone: the loop has one thread. *)
Inductive Task : Type :=
| TNew (c : Coroutine)
| TFetching (url : string)
| TGathering (url : string) (kids : list nat)
| TSleeping (url : string)
| TGetting (url : string)
| TDone (result : Outcome unit).

Record Sys : Type := mkSys {
  world : World;
  pool : list Task
}.

(** What the loop does next: start task [i], resume it with the answer to
    its request, resume it from [gather] (with the child whose exception
    [gather] passes on, if any), or resume it from [sleep]. *)
Inductive Action : Type :=
| Start (i : nat)
| Deliver (i : nat) (r : Reply)
| Join (i : nat) (failed : option nat)
| Wake (i : nat).

Definition is_done_ok (tasks : list Task) (k : nat) : bool :=
  match tasks !! k with
  | Some (TDone (Ok _)) => true
  | _ => false
  end.

Definition main_done (tasks : list Task) : bool :=
  match tasks !! 0%nat with
  | Some (TDone _) => true
  | _ => false
  end.

Section Loop.
Context {L : Platform} {S : Setup}.

(** the task state after a segment of [scrape] that stopped at [n];
    [gather] wraps the coroutines of [tasks] in fresh tasks *)
Definition settle (i : nat) (url : string) (tasks : list Task)
    (res : Outcome Next) : list Task :=
  match res with
  | Raise e => <[i := TDone (Raise e)]> tasks
  | Ok Return => <[i := TDone (Ok tt)]> tasks
  | Ok Sleep => <[i := TSleeping url]> tasks
  | Ok (Gather cs) =>
      <[i := TGathering url (seq (length tasks) (length cs))]> (tasks ++ (TNew <$> cs))
  end.

Definition step_task (a : Action) (s : Sys) : option Sys :=
  match a with
  | Start i =>
      match pool s !! i with
      | Some (TNew (CScrape url)) =>
          let '(res, w) := scrape_begin url (world s) in
          Some (mkSys w (<[i := match res with
                                | Ok true => TFetching url
                                | Ok false => TDone (Ok tt)
                                | Raise e => TDone (Raise e)
                                end]> (pool s)))
      | Some (TNew (CDownload url)) =>
          let '(res, w) := download_begin url (world s) in
          Some (mkSys w (<[i := match res with
                                | Ok _ => TGetting url
                                | Raise e => TDone (Raise e)
                                end]> (pool s)))
      | _ => None
      end
  | Deliver i r =>
      match pool s !! i with
      | Some (TFetching url) =>
          let '(res, w) := scrape_fetched url r (world s) in
          Some (mkSys w (settle i url (pool s) res))
      | Some (TGetting url) =>
          let '(res, w) := download_pdf url r (world s) in
          Some (mkSys w (<[i := TDone res]> (pool s)))
      | _ => None
      end
  | Join i failed =>
      match pool s !! i with
      | Some (TGathering url kids) =>
          match failed with
          | None =>
              if forallb (is_done_ok (pool s)) kids
              then let '(res, w) := scrape_gathered url (Ok tt) (world s) in
                   Some (mkSys w (settle i url (pool s) res))
              else None
          | Some k =>
              match bool_decide (k ∈ kids), pool s !! k with
              | true, Some (TDone (Raise e)) =>
                  let '(res, w) := scrape_gathered url (Raise e) (world s) in
                  Some (mkSys w (settle i url (pool s) res))
              | _, _ => None
              end
          end
      | _ => None
      end
  | Wake i =>
      match pool s !! i with
      | Some (TSleeping url) =>
          let '(res, w) := scrape_woken (world s) in
          Some (mkSys w (<[i := TDone res]> (pool s)))
      | _ => None
      end
  end.

(** One turn of the loop.  [asyncio.run(main())] returns when the main task
    (task 0) is done; nothing runs after that. *)
Definition step (a : Action) (s : Sys) : option Sys :=
  if main_done (pool s) then None else step_task a s.

Fixpoint exec (acts : list Action) (s : Sys) : option Sys :=
  match acts with
  | [] => Some s
  | a :: rest =>
      match step a s with
      | Some s' => exec rest s'
      | None => None
      end
  end.

(** [main]: the loop starts with the one task [scrape(session, mainurl)],
    on the dictionary read by [load_status]. *)
Definition main (disk : option (gmap string string)) : Sys :=
  mkSys (mkWorld (load_status disk) []) [TNew (CScrape mainurl)].

End Loop.

(** the last dictionary written to the status file, if any *)
Fixpoint status_on_disk (disk : option (gmap string string)) (evs : list Event)
    : option (gmap string string) :=
  match evs with
  | [] => disk
  | ESave _ ledger :: rest => status_on_disk (Some ledger) rest
  | _ :: rest => status_on_disk disk rest
  end.

(** the requests issued, in order *)
Definition requests (evs : list Event) : list string :=
  omap (fun e => match e with EGet url => Some url | _ => None end) evs.

(** the text files written, in order, with their contents *)
Definition text_files (evs : list Event) : list (string * string) :=
  omap (fun e => match e with EWriteText p c => Some (p, c) | _ => None end) evs.

(** the lines printed, in order *)
Definition printed (evs : list Event) : list string :=
  omap (fun e => match e with EPrint m => Some (render m) | _ => None end) evs.

(** ** A concrete platform

    [urllib.parse.urlparse] on URLs without control characters, reference
    resolution for references without dot segments, and a miniature
    document type: enough to run the crawler on small sites. *)

Module Sample.

Definition scheme_chars : string :=
  "abcdefghijklmnopqrstuvwxyzABCDEFGHIJKLMNOPQRSTUVWXYZ0123456789+-.".

Definition is_alpha (c : ascii) : bool :=
  let n := N_of_ascii c in
  (((65 <=? n) && (n <=? 90)) || ((97 <=? n) && (n <=? 122)))%N.

Fixpoint all_in (allowed s : string) : bool :=
  match s with
  | EmptyString => true
  | String a s' => Str.mem a allowed && all_in allowed s'
  end.

(** the scheme of [url], lower-cased, and what follows its colon *)
Definition split_scheme (url : string) : string * string :=
  match url with
  | EmptyString => (EmptyString, url)
  | String a _ =>
      let '(before, rest) := Str.break_at ":" url in
      if negb (Str.is_empty rest) && is_alpha a && all_in scheme_chars before
      then (Str.lower before, Str.drop 1 rest)
      else (EmptyString, url)
  end.

(** [_splitnetloc(url, 2)] after the leading two slashes *)
Definition split_netloc (url : string) : string * string :=
  if Str.startswith "//" url then Str.break_at "/?#" (Str.drop 2 url)
  else (EmptyString, url).

Definition brackets_ok (host : string) : bool :=
  Bool.eqb (Str.mem "[" host) (Str.mem "]" host).

(** the part of [s] up to its last slash, and what follows it *)
Fixpoint rsplit_slash (s : string) : string * string :=
  match s with
  | EmptyString => (EmptyString, EmptyString)
  | String a s' =>
      let '(h, t) := rsplit_slash s' in
      if negb (Str.is_empty h) then (String a h, t)
      else if Ascii.eqb a "/" then ("/", s')
      else (EmptyString, s)
  end.

Definition uses_params : list string :=
  [""; "ftp"; "hdl"; "prospero"; "http"; "imap"; "https"; "shttp"; "rtsp";
   "rtspu"; "sip"; "sips"; "mms"; "sftp"; "tel"].

Definition split_params (url : string) : string * string :=
  let '(h, t) := rsplit_slash url in
  if Str.mem ";" t
  then let '(l, r) := Str.split_once ";" t in (h +:+ l, r)
  else (url, EmptyString).

Definition parse_url (url : string) : Outcome ParseResult :=
  let '(sch, rest) := split_scheme url in
  let '(host, rest) := split_netloc rest in
  if negb (brackets_ok host) then Raise "ValueError: Invalid IPv6 URL"
  else
    let '(rest, frag) := Str.split_once "#" rest in
    let '(rest, qry) := Str.split_once "?" rest in
    let '(pth, prm) :=
      if bool_decide (sch ∈ uses_params) && Str.mem ";" rest
      then split_params rest else (rest, EmptyString) in
    Ok (mkParse sch host pth prm qry frag).

(** [urljoin(base, url)] for a reference [url] that is empty, absolute,
    starts with a slash, or names a sibling of the base document *)
Definition join_url (base url : string) : Outcome string :=
  if Str.is_empty base then Ok url
  else if Str.is_empty url then Ok base
  else
    b ← parse_url base;
    u ← parse_url url;
    if negb (Str.is_empty (scheme u)) then Ok url
    else if Str.startswith "//" url then Ok (scheme b +:+ ":" +:+ url)
    else if Str.startswith "/" url then Ok (scheme b +:+ "://" +:+ netloc b +:+ url)
    else Ok (scheme b +:+ "://" +:+ netloc b +:+ fst (rsplit_slash (path b)) +:+ url).

(** A document: the [href]s of its anchors, its text, and the text of its
    [main] element when it has one. *)
Record Doc : Type := mkDoc {
  anchors : list string;
  text : string;
  main_text : option string
}.

(** the words of [s], separated by single spaces *)
Fixpoint words_from (cur : string) (s : string) : list string :=
  match s with
  | EmptyString => [String.rev cur]
  | String a s' =>
      if Ascii.eqb a " " then String.rev cur :: words_from EmptyString s'
      else words_from (String a cur) s'
  end.

(** In the miniature markup a page is a line of words, and a word
    [href=U] is an anchor to [U]. *)
Definition parse_doc (content : string) : Outcome Doc :=
  let ws := words_from EmptyString content in
  Ok (mkDoc
        (omap (fun w => if Str.startswith "href=" w then Some (Str.drop 5 w) else None) ws)
        content None).

Definition sample_platform : Platform := {|
  urlparse := parse_url;
  urljoin := join_url;
  soup := Doc;
  BeautifulSoup := parse_doc;
  find_all_a_href := anchors;
  extract_all := fun _ d => d;
  get_text := fun d => Ok (text d);
  find_main := fun d => match main_text d with
                        | Some t => Some (mkDoc [] t None)
                        | None => None
                        end;
  get_text_lines := fun d => Ok (text d);
  open_ok := fun p => (String.length p <=? 255)%nat
|}.

(** the setup of lines 204-212 *)
Definition wsca : Setup := {|
  mainurl := "https://www.wscacademy.org/";
  domain := "www.wscacademy.org";
  data_folder := "wscadata";
  status_file := "wscadata/linkscraped.json";
  request_delay := 1
|}.

(** the same crawler pointed at other sites *)
Definition host_tld : Setup := {|
  mainurl := "https://host.tld/";
  domain := "host.tld";
  data_folder := "data";
  status_file := "data/linkscraped.json";
  request_delay := 1
|}.

Definition example_com : Setup := {|
  mainurl := "http://example.com/";
  domain := "example.com";
  data_folder := "data";
  status_file := "data/linkscraped.json";
  request_delay := 1
|}.


(** *** A small site *)

Definition root : string := "https://www.wscacademy.org/".
Definition paper : string := "https://www.wscacademy.org/a.pdf".
Definition versioned : string := "https://www.wscacademy.org/a.pdf?v=1".
Definition about_d : string := "https://www.wscacademy.org/d".

(** the crawl after its first turn: the root is claimed and requested *)
Definition fetching_root : Sys :=
  mkSys (mkWorld {[root := "pending"]} [EPrint (Visiting root); EGet root])
        [TFetching root].

(** Two pages, [/b] and [/c], link to [/d]: two tasks are about to claim it. *)
Definition rivals : Sys :=
  mkSys
    (mkWorld
       {[root := "success"; "https://www.wscacademy.org/b" := "success";
         "https://www.wscacademy.org/c" := "success"]}
       [EPrint (Visiting root); EGet root;
        EWriteText "wscadata/www.wscacademy.org_index.txt" "href=/b href=/c";
        EPrint (Visiting "https://www.wscacademy.org/c");
        EGet "https://www.wscacademy.org/c";
        EPrint (Visiting "https://www.wscacademy.org/b");
        EGet "https://www.wscacademy.org/b";
        EWriteText "wscadata/www.wscacademy.org_c.txt" "href=/d";
        EWriteText "wscadata/www.wscacademy.org_b.txt" "href=/d"])
    [TGathering root [1%nat; 2%nat];
     TGathering "https://www.wscacademy.org/c" [3%nat];
     TGathering "https://www.wscacademy.org/b" [4%nat];
     TNew (CScrape about_d); TNew (CScrape about_d)].

(** a page whose second link cannot be resolved: [urljoin] raises *)
Definition broken_page : string := "href=/b href=http://[::1/x".

(** a page of [example.com] with a link of its own and a link elsewhere *)
Definition linking_page : Doc :=
  mkDoc ["/about"; "http://other.example.com/page"] "two links" None.

Definition about : string := "http://example.com/about".
Definition other : string := "http://other.example.com/page".

(** two URLs of the host of [wsca], one naming the port of [https] and one
    carrying user information, and a page that links to both *)
Definition with_port : string := "https://www.wscacademy.org:443/b".
Definition with_user : string := "https://user@www.wscacademy.org/b".
Definition ported_page : Doc := mkDoc [with_port; with_user] "two links" None.

End Sample.

(** ** The vocabulary of the properties *)

(** the path with every slash turned into an underscore, character by
    character: what "slashes replaced by underscores" says *)
Fixpoint slashes_to_underscores (s : string) : string :=
  match s with
  | EmptyString => EmptyString
  | String a s' =>
      String (if Ascii.eqb a "/" then "_"%char else a) (slashes_to_underscores s')
  end.

(** the base name the specification describes: host, underscore, and the
    path without its outer slashes and with the inner ones replaced, or
    [index] when nothing is left of the path *)
Definition file_stem (p : ParseResult) : string :=
  let stripped := Str.strip "/" (path p) in
  netloc p +:+ "_" +:+
  (if Str.is_empty stripped then "index" else slashes_to_underscores stripped).

(** [keeps R m]: running [m] takes every world to an [R]-related one,
    whether [m] returns or raises. *)
Definition keeps {A} (R : World → World → Prop) (m : M A) : Prop :=
  ∀ w, R w (m w).2.

(** the dictionary is left as it is (files and output may change) *)
Definition same_ledger (w w' : World) : Prop :=
  visitedlinks w' = visitedlinks w.

(** no key of the dictionary is lost *)
Definition ledger_grows (w w' : World) : Prop :=
  dom (visitedlinks w) ⊆ dom (visitedlinks w').

(** the pages [scrape] announced, in order: each announcement follows a
    successful claim and precedes the request of the page *)
Definition visits (evs : list Event) : list string :=
  omap (fun e => match e with EPrint (Visiting u) => Some u | _ => None end) evs.

(** no key is lost, and the pages announced between [w] and [w'] are
    distinct, had no entry in [w] and have one in [w'] *)
Definition claims_fresh (w w' : World) : Prop :=
  ledger_grows w w' ∧
  ∃ new, visits (events w') = visits (events w) ++ new ∧
         NoDup new ∧
         (∀ u, u ∈ new → (u ∉ dom (visitedlinks w)) ∧ (u ∈ dom (visitedlinks w'))).

(** no text file is written between [w] and [w'] *)
Definition no_text_written (w w' : World) : Prop :=
  ∀ p c, EWriteText p c ∈ events w' → EWriteText p c ∈ events w.

Global Instance Outcome_eq_dec {A} `{EqDecision A} : EqDecision (Outcome A).
Proof. solve_decision. Defined.

(** the lines [add_to_extralinks] appends for the URLs [us] *)
Definition logged (us : list string) : list Event :=
  (fun u => EAppend "extralinks.txt" (u +:+ newline)) <$> us.

Section Errors.
Context {L : Platform} {S : Setup}.

(** [page_error url content w e w']: started in world [w], the processing of
    the fetched [content] raises [e] and leaves world [w'], the exception
    coming from the parser, from the extraction of the links, or from the
    processing of the text. *)
Inductive page_error (url content : string) (w : World) (e : Exn) (w' : World) : Prop :=
| parse_error :
    BeautifulSoup content = Raise e → w' = w →
    page_error url content w e w'
| links_error (page : soup) :
    BeautifulSoup content = Ok page →
    extract_links page url w = (Raise e, w') →
    page_error url content w e w'
| text_error (page : soup) (links : gset string) (w1 : World) :
    BeautifulSoup content = Ok page →
    extract_links page url w = (Ok links, w1) →
    process_page page url w1 = (Raise e, w') →
    page_error url content w e w'.

End Errors.

(** ** chatbot.py: loading the saved pages *)

(** The folder as the chatbot finds it: [os.listdir] and the reading of a
    text file ([open(p, 'r', encoding='utf-8')] and [read]), either of
    which may raise. *)
Record Folder : Type := mkFolder {
  listdir : string -> Outcome (list string);
  read_text : string -> Outcome string
}.

(** the [for filename in ...] loop of [load_and_process_files], with the
    texts read so far *)
Fixpoint load_loop (fs : Folder) (data_folder : string) (names : list string)
    (texts : list string) : Outcome (list string) :=
  match names with
  | [] => Ok texts
  | filename :: rest =>
      if Str.endswith filename ".txt"
      then content ← read_text fs (path_join data_folder filename);
           load_loop fs data_folder rest (texts ++ [content])
      else load_loop fs data_folder rest texts
  end.

Definition load_and_process_files (fs : Folder) (data_folder : string)
    : Outcome (list string) :=
  names ← listdir fs data_folder;
  load_loop fs data_folder names [].

(** ** More vocabulary *)

(** what follows the last occurrence of [c] in [s]; [s] itself when [c]
    does not occur *)
Fixpoint after_last (c : ascii) (s : string) : string :=
  match s with
  | EmptyString => EmptyString
  | String a s' =>
      if Str.mem c s' then after_last c s'
      else if Ascii.eqb a c then s' else s
  end.

(** the host component of a [netloc] without brackets: what follows the
    user information and precedes the port, in lower case ([hostname] in
    [urllib]) *)
Definition host_of (authority : string) : string :=
  Str.lower (Str.break_at ":" (after_last "@" authority)).1.

(** the three values the program writes into the dictionary *)
Definition statuses : list string := ["pending"; "success"; "failed"].

(** an event other than the announcement of a visit, a request and the
    writing of the status file *)
Definition is_plain (e : Event) : bool :=
  match e with
  | EPrint (Visiting _) | EGet _ | ESave _ _ => false
  | _ => true
  end.

(** the names [load_and_process_files] reads *)
Definition is_txt (filename : string) : Prop := Str.endswith filename ".txt" = true.

Global Instance is_txt_dec (filename : string) : Decision (is_txt filename).
Proof. unfold is_txt. apply _. Defined.

(** no request is issued between [w] and [w'] *)
Definition same_requests (w w' : World) : Prop :=
  requests (events w') = requests (events w).

(** no key is lost, and every dictionary saved between [w] and [w'] has
    at least the keys of [w] and at most those of [w'] *)
Definition saves_fresh (w w' : World) : Prop :=
  ledger_grows w w' ∧
  ∀ p l, ESave p l ∈ events w' →
         ESave p l ∈ events w ∨
         (dom (visitedlinks w) ⊆ dom l ∧ dom l ⊆ dom (visitedlinks w')).

(** every entry of [w'] is an entry of [w] or holds one of the three
    statuses *)
Definition values_ok (w w' : World) : Prop :=
  ∀ url v, visitedlinks w' !! url = Some v →
           visitedlinks w !! url = Some v ∨ v ∈ statuses.


Section Scope.
Context {L : Platform} {S : Setup}.

(** a URL the crawl may request: the seed, or a URL of the domain *)
Definition scoped (url : string) : Prop :=
  url = mainurl ∨ check_link url = Ok true.

(** a task that is about to request a URL, or waits for the answer, deals
    with a URL the crawl may request *)
Definition task_scoped (t : Task) : Prop :=
  match t with
  | TNew (CScrape url) | TNew (CDownload url) | TFetching url | TGetting url => scoped url
  | _ => True
  end.

Definition all_scoped (s : Sys) : Prop :=
  Forall task_scoped (pool s) ∧ Forall scoped (requests (events (world s))).

End Scope.

(** *** A folder and a few states for the examples *)

Module Shelf.
Import Sample.

(** the crawler's folder after a crawl: a page, a PDF and the status file *)
Definition folder : Folder := {|
  listdir := fun d =>
    if String.eqb d "wscadata"
    then Ok ["www.wscacademy.org_index.txt"; "www.wscacademy.org_a.pdf.pdf";
             "linkscraped.json"]
    else Raise "FileNotFoundError";
  read_text := fun p =>
    if String.eqb p "wscadata/www.wscacademy.org_index.txt" then Ok "Welcome"
    else Raise "UnicodeDecodeError"
|}.

(** the same folder with a text file that is not valid UTF-8 *)
Definition bad_folder : Folder := {|
  listdir := fun d =>
    Ok ["www.wscacademy.org_index.txt"; "www.wscacademy.org_b.txt"];
  read_text := fun p =>
    if String.eqb p "wscadata/www.wscacademy.org_index.txt" then Ok "Welcome"
    else Raise "UnicodeDecodeError"
|}.

Definition about_b : string := "https://www.wscacademy.org/b".

(** the root page was fetched and links to [/b], whose task has not started *)
Definition waiting_for_b : Sys :=
  mkSys (mkWorld {[root := "success"]}
           [EPrint (Visiting root); EGet root;
            EWriteText "wscadata/www.wscacademy.org_index.txt" "href=/b"])
        [TGathering root [1%nat]; TNew (CScrape about_b)].

(** a crawl of a seed page without links, to its end *)
Definition leaf_crawl : list Action :=
  [Start 0%nat; Deliver 0%nat (Response 200 (Ok "Welcome")); Wake 0%nat].

End Shelf.

(** * Properties *)

(** ** Strings *)

Local Arguments Ascii.eqb : simpl never.

Lemma str_app_nil_l (s : string) : "" +:+ s = s.
Proof. reflexivity. Qed.

Lemma str_app_cons (a : ascii) (s t : string) : String a s +:+ t = String a (s +:+ t).
Proof. reflexivity. Qed.

Lemma str_app_nil_r (s : string) : s +:+ "" = s.
Proof. induction s as [|a s IH]; [reflexivity|]. rewrite str_app_cons. by f_equal. Qed.

Lemma str_app_assoc (s t u : string) : (s +:+ t) +:+ u = s +:+ (t +:+ u).
Proof. induction s as [|a s IH]; [reflexivity|]. rewrite !str_app_cons. by f_equal. Qed.

Lemma str_length_app (s t : string) :
  String.length (s +:+ t) = (String.length s + String.length t)%nat.
Proof. induction s as [|a s IH]; [reflexivity|]. rewrite str_app_cons. simpl. by f_equal. Qed.

Lemma str_drop_app (s t : string) : Str.drop (String.length s) (s +:+ t) = t.
Proof. induction s as [|a s IH]; [reflexivity|]. rewrite str_app_cons. exact IH. Qed.

Lemma endswith_app (s p : string) : Str.endswith (s +:+ p) p = true.
Proof.
  unfold Str.endswith. rewrite str_length_app.
  replace (String.length s + String.length p - String.length p)%nat
    with (String.length s) by lia.
  rewrite str_drop_app, String.eqb_refl, andb_true_r.
  apply Nat.leb_le. lia.
Qed.

Lemma str_app_inv_tail (s t u : string) : s +:+ u = t +:+ u → s = t.
Proof.
  revert t. induction s as [|a s IH]; intros [|b t] H.
  - reflexivity.
  - apply (f_equal String.length) in H. rewrite str_app_nil_l, str_app_cons in H.
    simpl in H. rewrite str_length_app in H. lia.
  - apply (f_equal String.length) in H. rewrite str_app_nil_l, str_app_cons in H.
    simpl in H. rewrite str_length_app in H. lia.
  - rewrite !str_app_cons in H. injection H as -> H. f_equal. by apply IH.
Qed.

Lemma replace_fuel_empty (n : nat) (old new : string) :
  Str.replace_fuel n old new "" = "".
Proof. by destruct n. Qed.

Lemma replace_slash (s : string) : Str.replace "/" "_" s = slashes_to_underscores s.
Proof.
  unfold Str.replace. induction s as [|a s IH]; [reflexivity|].
  simpl. rewrite andb_true_r, IH.
  destruct (Ascii.eqb_spec "/" a) as [<-|Hne]; [reflexivity|].
  destruct (Ascii.eqb_spec a "/") as [->|_]; [done|reflexivity].
Qed.

Lemma mem_slashes_to_underscores (s : string) :
  Str.mem "/" (slashes_to_underscores s) = false.
Proof.
  induction s as [|a s IH]; [reflexivity|]. simpl. rewrite IH, orb_false_r.
  destruct (Ascii.eqb_spec a "/") as [->|Hne]; [reflexivity|].
  by apply Ascii.eqb_neq.
Qed.

Lemma slashes_to_underscores_empty (s : string) :
  Str.is_empty (slashes_to_underscores s) = Str.is_empty s.
Proof. by destruct s. Qed.

(** An occurrence of [".txt"] that starts inside [y] lies inside [y]: it
    cannot run into a [".txt"] appended to [y], whose dot is no letter. *)
Lemma startswith_txt_app (a : ascii) (y : string) :
  Str.startswith ".txt" (String a y +:+ ".txt") = true →
  ∃ y', String a y = ".txt" +:+ y'.
Proof.
  rewrite str_app_cons. simpl.
  destruct (Ascii.eqb_spec "." a) as [<-|]; [|done].
  destruct y as [|b y]; [done|]. rewrite str_app_cons.
  destruct (Ascii.eqb_spec "t" b) as [<-|]; [|done].
  destruct y as [|c y]; [done|]. rewrite str_app_cons.
  destruct (Ascii.eqb_spec "x" c) as [<-|]; [|done].
  destruct y as [|d y]; [done|]. rewrite str_app_cons.
  destruct (Ascii.eqb_spec "t" d) as [<-|]; [|done].
  intros _. by exists y.
Qed.

Lemma startswith_txt_app_inside (a : ascii) (y : string) :
  Str.startswith ".txt" (String a y +:+ ".txt") = Str.startswith ".txt" (String a y).
Proof.
  destruct (Str.startswith ".txt" (String a y +:+ ".txt")) eqn:E.
  - apply startswith_txt_app in E as [y' ->]. reflexivity.
  - symmetry. apply not_true_is_false. intros H. 
    assert (∃ y', String a y = ".txt" +:+ y') as [y' Hy].
    { revert H. simpl.
      destruct (Ascii.eqb_spec "." a) as [<-|]; [|done].
      destruct y as [|b y]; [done|].
      destruct (Ascii.eqb_spec "t" b) as [<-|]; [|done].
      destruct y as [|c y]; [done|].
      destruct (Ascii.eqb_spec "x" c) as [<-|]; [|done].
      destruct y as [|d y]; [done|].
      destruct (Ascii.eqb_spec "t" d) as [<-|]; [|done].
      intros _. by exists y. }
    rewrite Hy in E. by rewrite str_app_assoc in E.
Qed.

(** [replace(".txt", ".pdf")] turns a name ending in [".txt"] into one
    ending in [".pdf"], whatever else it rewrites on the way. *)
Lemma replace_txt_suffix (n : nat) (y : string) :
  (String.length y + 4 ≤ n)%nat →
  ∃ z, Str.replace_fuel n ".txt" ".pdf" (y +:+ ".txt") = z +:+ ".pdf".
Proof.
  revert y. induction n as [|n IH]; intros y Hn; [lia|].
  destruct y as [|a y].
  - exists "". rewrite str_app_nil_l. simpl. by rewrite replace_fuel_empty.
  - change (Str.replace_fuel (S n) ".txt" ".pdf" (String a y +:+ ".txt"))
      with (if Str.startswith ".txt" (String a y +:+ ".txt")
            then ".pdf" +:+ Str.replace_fuel n ".txt" ".pdf"
                              (Str.drop 4 (String a y +:+ ".txt"))
            else String a (Str.replace_fuel n ".txt" ".pdf" (y +:+ ".txt"))).
    destruct (Str.startswith ".txt" (String a y +:+ ".txt")) eqn:E.
    + apply startswith_txt_app in E as [y' Hy]. rewrite Hy.
      rewrite str_app_assoc. change (Str.drop 4 (".txt" +:+ y' +:+ ".txt")) with (y' +:+ ".txt").
      destruct (IH y') as [z Hz].
      { apply (f_equal String.length) in Hy. rewrite str_length_app in Hy.
        simpl in Hy, Hn. lia. }
      exists (".pdf" +:+ z). by rewrite Hz, str_app_assoc.
    + destruct (IH y) as [z Hz]; [simpl in Hn; lia|].
      exists (String a z). by rewrite Hz.
Qed.

(** When [".txt"] occurs nowhere in [y], only the appended extension is
    rewritten. *)
Lemma replace_txt_only_suffix (n : nat) (y : string) :
  (String.length y + 4 ≤ n)%nat →
  Str.contains ".txt" y = false →
  Str.replace_fuel n ".txt" ".pdf" (y +:+ ".txt") = y +:+ ".pdf".
Proof.
  revert y. induction n as [|n IH]; intros y Hn Hy; [lia|].
  destruct y as [|a y].
  - rewrite str_app_nil_l. simpl. by rewrite replace_fuel_empty.
  - change (Str.replace_fuel (S n) ".txt" ".pdf" (String a y +:+ ".txt"))
      with (if Str.startswith ".txt" (String a y +:+ ".txt")
            then ".pdf" +:+ Str.replace_fuel n ".txt" ".pdf"
                              (Str.drop 4 (String a y +:+ ".txt"))
            else String a (Str.replace_fuel n ".txt" ".pdf" (y +:+ ".txt"))).
    rewrite startswith_txt_app_inside.
    change (Str.contains ".txt" (String a y))
      with (Str.startswith ".txt" (String a y) || Str.contains ".txt" y) in Hy.
    apply orb_false_iff in Hy as [-> Hy].
    rewrite IH; [by rewrite str_app_cons| simpl in Hn; lia | done].
Qed.

(** ** File names *)

Section FileNames.
Context {L : Platform} {S : Setup}.

Lemma create_file_stem (url : string) (p : ParseResult) :
  urlparse url = Ok p →
  create_file url = Ok (path_join data_folder (file_stem p +:+ ".txt")).
Proof.
  intros Hp. unfold create_file, file_stem. rewrite Hp.
  change (Ok p ≫= ?k) with (k p). cbv beta zeta.
  rewrite replace_slash, slashes_to_underscores_empty.
  by rewrite !str_app_assoc.
Qed.

(** [os.path.join] puts the same directory prefix before the name, whatever
    its extension. *)
Lemma path_join_stem (p : ParseResult) :
  ∃ dir, ∀ ext, path_join data_folder (file_stem p +:+ ext) = dir +:+ file_stem p +:+ ext.
Proof.
  unfold path_join.
  assert (∀ ext, Str.startswith "/" (file_stem p +:+ ext)
                 = Str.startswith "/" (file_stem p)) as Hs.
  { intros ext. unfold file_stem. destruct (netloc p) as [|a h]; reflexivity. }
  destruct (Str.startswith "/" (file_stem p)) eqn:E.
  - exists "". intros ext. by rewrite Hs.
  - destruct (Str.is_empty data_folder || Str.endswith data_folder "/").
    + exists data_folder. intros ext. by rewrite Hs.
    + exists (data_folder +:+ "/"). intros ext. by rewrite Hs, str_app_assoc.
Qed.

(** C7. [create_file] names the file after the host and the path: the
    path loses its outer slashes, its inner slashes become underscores, and
    an empty path becomes [index]; the name ends in [.txt], and the name
    [write_pdf] derives from it ends in [.pdf] (it is the same name with
    the other extension when [.txt] occurs nowhere else in it).  For host
    [host.tld], the path [/] gives [host.tld_index] and the path [/a/b]
    gives [host.tld_a_b]. *)
Theorem create_file_spec (url : string) (p : ParseResult) :
  urlparse url = Ok p →
  ∃ dir pdf,
    create_file url = Ok (dir +:+ file_stem p +:+ ".txt") ∧
    path_join data_folder (file_stem p +:+ ".txt") = dir +:+ file_stem p +:+ ".txt" ∧
    Str.endswith (dir +:+ file_stem p +:+ ".txt") ".txt" = true ∧
    pdf_filename url = Ok pdf ∧
    Str.endswith pdf ".pdf" = true ∧
    (Str.contains ".txt" (dir +:+ file_stem p) = false →
     pdf = dir +:+ file_stem p +:+ ".pdf") ∧
    (∃ seg, file_stem p = netloc p +:+ "_" +:+ seg ∧ Str.mem "/" seg = false) ∧
    (Str.strip "/" (path p) = "" → file_stem p = netloc p +:+ "_index") ∧
    (netloc p = "host.tld" → path p = "/" → file_stem p = "host.tld_index") ∧
    (netloc p = "host.tld" → path p = "/a/b" → file_stem p = "host.tld_a_b").
Proof.
  intros Hp. destruct (path_join_stem p) as [dir Hdir].
  pose proof (create_file_stem url p Hp) as Hc. rewrite Hdir in Hc.
  exists dir, (Str.replace ".txt" ".pdf" (dir +:+ file_stem p +:+ ".txt")).
  split; [exact Hc|]. split; [apply Hdir|].
  split; [rewrite <- str_app_assoc; apply endswith_app|].
  split; [unfold pdf_filename; rewrite Hc; reflexivity|].
  split.
  { unfold Str.replace. rewrite <- str_app_assoc.
    destruct (replace_txt_suffix (String.length ((dir +:+ file_stem p) +:+ ".txt"))
                (dir +:+ file_stem p)) as [z ->].
    - rewrite !str_length_app. simpl. lia.
    - apply endswith_app. }
  split.
  { intros Hno. unfold Str.replace. rewrite <- !str_app_assoc.
    apply replace_txt_only_suffix; [|done]. rewrite !str_length_app. simpl. lia. }
  split.
  { unfold file_stem. eexists; split; [reflexivity|].
    destruct (Str.is_empty _); [reflexivity|apply mem_slashes_to_underscores]. }
  split; [unfold file_stem; by intros ->|].
  split; unfold file_stem; by intros -> ->.
Qed.

End FileNames.

(** ** What a piece of code may do to the world *)

Global Instance same_ledger_preorder : PreOrder same_ledger.
Proof.
  split; [done|]. unfold same_ledger. intros x y z Hxy Hyz. congruence.
Qed.

Global Instance ledger_grows_preorder : PreOrder ledger_grows.
Proof.
  split.
  - by intros x u.
  - intros x y z Hxy Hyz u Hu. by apply Hyz, Hxy.
Qed.

Global Instance claims_fresh_preorder : PreOrder claims_fresh.
Proof.
  split.
  - intros x. split; [done|]. exists []. rewrite app_nil_r.
    split; [done|]. split; [constructor|]. intros u Hu. by apply elem_of_nil in Hu.
  - intros x y z [Hxy (n1 & E1 & D1 & F1)] [Hyz (n2 & E2 & D2 & F2)].
    split; [by etrans|]. exists (n1 ++ n2).
    split; [by rewrite E2, E1, app_assoc|]. split.
    + apply NoDup_app. split; [done|]. split; [|done].
      intros u H1 H2. apply F1 in H1 as [_ H1]. apply F2 in H2 as [H2 _]. done.
    + intros u [Hu|Hu]%elem_of_app.
      * apply F1 in Hu as [? ?]. split; [done|]. by apply Hyz.
      * apply F2 in Hu as [Hu ?]. split; [|done]. intros Hx. by apply Hu, Hxy.
Qed.

Section Keeps.
Context (R : World → World → Prop) `{!PreOrder R}.

Lemma keeps_ret {A} (a : A) : keeps R (mret a).
Proof. intros w. reflexivity. Qed.

Lemma keeps_raise {A} (e : Exn) : keeps R (@raise A e).
Proof. intros w. reflexivity. Qed.

Lemma keeps_lift {A} (o : Outcome A) : keeps R (lift o).
Proof. intros w. reflexivity. Qed.

Lemma keeps_get_ledger : keeps R get_ledger.
Proof. intros w. reflexivity. Qed.

Lemma keeps_bind {A B} (m : M A) (k : A → M B) :
  keeps R m → (∀ a, keeps R (k a)) → keeps R (m ≫= k).
Proof.
  intros Hm Hk w. unfold mbind, M_bind, bind.
  specialize (Hm w). destruct (m w) as [[a|e] w1]; simpl in *; [|done].
  etrans; [exact Hm|apply Hk].
Qed.

Lemma keeps_try {A} (m : M A) (h : Exn → M A) :
  keeps R m → (∀ e, keeps R (h e)) → keeps R (try_except m h).
Proof.
  intros Hm Hh w. unfold try_except.
  specialize (Hm w). destruct (m w) as [[a|e] w1]; simpl in *; [done|].
  etrans; [exact Hm|apply Hh].
Qed.

End Keeps.

Create HintDb keeps discriminated.
#[global] Hint Resolve keeps_ret keeps_raise keeps_lift keeps_get_ledger : keeps.
#[global] Hint Extern 1 (PreOrder _) => apply _ : keeps.

(** Breaks a [keeps] goal along the structure of the code. *)
Ltac keeps_step :=
  match goal with
  | |- keeps _ (_ ≫= _) => apply keeps_bind; [apply _| |intros ?]
  | |- keeps _ (try_except _ _) => apply keeps_try; [apply _| |intros ?]
  | |- keeps _ (match ?x with _ => _ end) => destruct x
  | |- keeps _ (if ?x then _ else _) => destruct x
  | |- keeps _ _ => solve [eauto with keeps]
  end.

Ltac keeps_auto := repeat keeps_step.

(** Uses a fact about the segment that a turn of the loop runs. *)
Ltac run_segment H :=
  match goal with
  | Hs : context [match ?x with _ => _ end] |- _ =>
      let E := fresh "E" in
      pose proof H as E; destruct x as [? ?]; simplify_eq /=; exact E
  end.

(** A relation kept by every event but the announcement of a visit, by
    every write to the dictionary, and by the start of [scrape], is kept
    by every segment of the program, hence by every turn of the loop. *)
Section Code.
Context {L : Platform} {S : Setup}.
Context (R : World → World → Prop) `{!PreOrder R}.

Hypothesis R_emit : ∀ e, (∀ u, e ≠ EPrint (Visiting u)) → keeps R (emit e).

#[local] Hint Extern 1 (keeps _ (emit _)) =>
  apply R_emit; intros ?; discriminate : keeps.

Lemma keeps_open_file (p : string) : keeps R (open_file p).
Proof. unfold open_file. keeps_auto. Qed.

#[local] Hint Resolve keeps_open_file : keeps.

Lemma keeps_save_status : keeps R save_status.
Proof. unfold save_status. keeps_auto. Qed.

Lemma keeps_write_text (url content : string) : keeps R (write_text url content).
Proof. unfold write_text. keeps_auto. Qed.

Lemma keeps_write_pdf (url content : string) : keeps R (write_pdf url content).
Proof. unfold write_pdf. keeps_auto. Qed.

Lemma keeps_add_to_extralinks (url : string) : keeps R (add_to_extralinks url).
Proof. unfold add_to_extralinks. keeps_auto. Qed.

#[local] Hint Resolve keeps_save_status keeps_write_text keeps_write_pdf
  keeps_add_to_extralinks : keeps.

Lemma keeps_extract_links_loop (hrefs : list string) (base : string) (acc : gset string) :
  keeps R (extract_links_loop hrefs base acc).
Proof.
  revert acc. induction hrefs as [|href rest IH]; intros acc; simpl; keeps_auto.
Qed.

#[local] Hint Resolve keeps_extract_links_loop : keeps.

Lemma keeps_process_page (page : soup) (url : string) : keeps R (process_page page url).
Proof. unfold process_page. keeps_auto. Qed.

#[local] Hint Resolve keeps_process_page : keeps.

Lemma keeps_scrape_page (url content : string) : keeps R (scrape_page url content).
Proof. unfold scrape_page, extract_links. keeps_auto. Qed.

#[local] Hint Resolve keeps_scrape_page : keeps.

Hypothesis R_set_status : ∀ url v, keeps R (set_status url v).
Hypothesis R_begin : ∀ url, keeps R (scrape_begin url).

#[local] Hint Resolve R_set_status : keeps.

Lemma keeps_scrape_except (url : string) (e : Exn) : keeps R (scrape_except url e).
Proof. unfold scrape_except. keeps_auto. Qed.

#[local] Hint Resolve keeps_scrape_except : keeps.

Lemma keeps_scrape_fetched (url : string) (r : Reply) : keeps R (scrape_fetched url r).
Proof. unfold scrape_fetched, fetch, scrape_sleep. keeps_auto. Qed.

Lemma keeps_scrape_gathered (url : string) (res : Outcome unit) :
  keeps R (scrape_gathered url res).
Proof. unfold scrape_gathered, scrape_sleep. keeps_auto. Qed.

Lemma keeps_scrape_woken : keeps R scrape_woken.
Proof. apply keeps_save_status. Qed.

Lemma keeps_download_begin (url : string) : keeps R (download_begin url).
Proof. unfold download_begin. keeps_auto. Qed.

Lemma keeps_download_pdf (url : string) (r : Reply) : keeps R (download_pdf url r).
Proof. unfold download_pdf. keeps_auto. Qed.

Lemma step_keeps (a : Action) (s s' : Sys) :
  step a s = Some s' → R (world s) (world s').
Proof.
  unfold step, step_task. intros Hs.
  destruct (main_done (pool s)); [done|].
  destruct a as [i|i r|i [k|]|i];
    destruct (pool s !! i) as [[[url|url]|url|url kids|url|url|res]|]; try done.
  - run_segment (R_begin url (world s)).
  - run_segment (keeps_download_begin url (world s)).
  - run_segment (keeps_scrape_fetched url r (world s)).
  - run_segment (keeps_download_pdf url r (world s)).
  - destruct (bool_decide (k ∈ kids)); [|done].
    destruct (pool s !! k) as [[| | | | |[|e]]|]; try done.
    run_segment (keeps_scrape_gathered url (Raise e) (world s)).
  - destruct (forallb _ kids); [|done].
    run_segment (keeps_scrape_gathered url (Ok tt) (world s)).
  - run_segment (keeps_scrape_woken (world s)).
Qed.

Lemma exec_keeps (acts : list Action) (s s' : Sys) :
  exec acts s = Some s' → R (world s) (world s').
Proof.
  revert s. induction acts as [|a acts IH]; intros s; simpl.
  - intros [= ->]. reflexivity.
  - destruct (step a s) as [s1|] eqn:E; [|done]. intros H.
    etrans; [by eapply step_keeps|by apply IH].
Qed.

End Code.

(** ** Running a segment on a world *)

(** Unfolds the monad, so that a segment shows what it returns and the
    world it leaves. *)
Ltac run :=
  cbv [mbind M_bind bind mret M_ret ret lift emit set_status get_ledger raise
       try_except Outcome_bind Outcome_ret].

Section Claim.
Context {L : Platform} {S : Setup}.

Lemma claim_fresh (url : string) (w : World) :
  visitedlinks w !! url = None →
  claim url w = (Ok true, mkWorld (<[url := "pending"]> (visitedlinks w)) (events w)).
Proof. intros H. unfold claim. run. by rewrite H. Qed.

Lemma claim_known (url : string) (w : World) :
  is_Some (visitedlinks w !! url) → claim url w = (Ok false, w).
Proof. intros [v H]. unfold claim. run. by rewrite H. Qed.

Lemma scrape_begin_fresh (url : string) (w : World) :
  visitedlinks w !! url = None →
  scrape_begin url w =
    (Ok true, mkWorld (<[url := "pending"]> (visitedlinks w))
                      (events w ++ [EPrint (Visiting url)] ++ [EGet url])).
Proof.
  intros H. unfold scrape_begin.
  pose proof (claim_fresh url w H) as Hc. revert Hc. unfold fetch_request. run.
  intros ->. simpl. by rewrite <- app_assoc.
Qed.

(** A URL that has an entry is left alone: no mark, no message, no request. *)
Lemma scrape_begin_known (url : string) (w : World) :
  is_Some (visitedlinks w !! url) → scrape_begin url w = (Ok false, w).
Proof.
  intros H. unfold scrape_begin.
  pose proof (claim_known url w H) as Hc. revert Hc. run. by intros ->.
Qed.

End Claim.

(** ** The dictionary along a crawl *)

Lemma visits_app (evs evs' : list Event) : visits (evs ++ evs') = visits evs ++ visits evs'.
Proof. apply omap_app. Qed.

Lemma same_ledger_emit (e : Event) : keeps same_ledger (emit e).
Proof. by intros w. Qed.

Lemma ledger_grows_emit (e : Event) : keeps ledger_grows (emit e).
Proof. by intros w u. Qed.

Lemma ledger_grows_set_status (url v : string) : keeps ledger_grows (set_status url v).
Proof. intros w u. simpl. rewrite dom_insert, elem_of_union. by right. Qed.

Lemma claims_fresh_same (w w' : World) :
  ledger_grows w w' → visits (events w') = visits (events w) → claims_fresh w w'.
Proof.
  intros Hg Hv. split; [done|]. exists []. rewrite app_nil_r.
  split; [done|]. split; [constructor|]. intros u Hu. by apply elem_of_nil in Hu.
Qed.

Lemma claims_fresh_emit (e : Event) :
  (∀ u, e ≠ EPrint (Visiting u)) → keeps claims_fresh (emit e).
Proof.
  intros He w. apply claims_fresh_same; [apply ledger_grows_emit|].
  simpl. rewrite visits_app.
  destruct e as [[u| |]| | | | | |]; try apply app_nil_r. by destruct (He u).
Qed.

Lemma claims_fresh_set_status (url v : string) : keeps claims_fresh (set_status url v).
Proof. intros w. apply claims_fresh_same; [apply ledger_grows_set_status|done]. Qed.

Section Crawl.
Context {L : Platform} {S : Setup}.

(** The code that parses a page, extracts its links and saves its text
    does not touch the dictionary. *)
Lemma same_ledger_scrape_page (url content : string) :
  keeps same_ledger (scrape_page url content).
Proof. apply keeps_scrape_page; [apply _|]. intros e _. apply same_ledger_emit. Qed.

Lemma ledger_grows_scrape_begin (url : string) : keeps ledger_grows (scrape_begin url).
Proof.
  intros w. destruct (visitedlinks w !! url) as [v|] eqn:E.
  - rewrite scrape_begin_known by eauto. reflexivity.
  - rewrite scrape_begin_fresh by done. apply ledger_grows_set_status.
Qed.

Lemma claims_fresh_scrape_begin (url : string) : keeps claims_fresh (scrape_begin url).
Proof.
  intros w. destruct (visitedlinks w !! url) as [v|] eqn:E.
  - rewrite scrape_begin_known by eauto. reflexivity.
  - rewrite scrape_begin_fresh by done. split; [apply ledger_grows_set_status|].
    exists [url]. simpl. rewrite visits_app. split; [done|].
    split; [apply NoDup_singleton|].
    intros u ->%list_elem_of_singleton. split.
    + by apply not_elem_of_dom.
    + apply elem_of_dom. rewrite lookup_insert_eq. eauto.
Qed.

(** No turn of the loop removes a key from the dictionary. *)
Lemma exec_ledger_grows (acts : list Action) (s s' : Sys) :
  exec acts s = Some s' → ledger_grows (world s) (world s').
Proof.
  apply exec_keeps; [apply _| | |].
  - intros e _. apply ledger_grows_emit.
  - apply ledger_grows_set_status.
  - apply ledger_grows_scrape_begin.
Qed.

Lemma exec_claims_fresh (acts : list Action) (s s' : Sys) :
  exec acts s = Some s' → claims_fresh (world s) (world s').
Proof.
  apply exec_keeps; [apply _| | |].
  - apply claims_fresh_emit.
  - apply claims_fresh_set_status.
  - apply claims_fresh_scrape_begin.
Qed.

(** In a crawl, whatever the schedule and the answers, no page is
    announced twice, and no page that has an entry in the dictionary
    loaded at the start is announced at all. *)
Lemma pages_claimed_once (disk : option (gmap string string)) (acts : list Action)
    (s : Sys) :
  exec acts (main disk) = Some s →
  NoDup (visits (events (world s))) ∧
  ∀ u, u ∈ visits (events (world s)) →
       (u ∉ dom (load_status disk)) ∧ (u ∈ dom (visitedlinks (world s))).
Proof.
  intros H. apply exec_claims_fresh in H as [_ (new & E & D & F)].
  simpl in E. rewrite E. split; [done|]. intros u Hu. by apply F.
Qed.

(** C1. The check under the lock returns true, and marks the URL
    [pending], exactly when the URL has no entry; when it has one, whatever
    its value, the check returns false and changes nothing.  Hence of two
    tasks that claim the same unclaimed URL, in any schedule of the loop,
    the first goes on to fetch and the second returns at once without
    touching the world: exactly one succeeds.  In a whole crawl no URL is
    claimed with success twice. *)
Theorem claim_once (url : string) :
  (∀ w, (claim url w).1 = Ok true ↔ visitedlinks w !! url = None) ∧
  (∀ w, visitedlinks w !! url = None →
        claim url w = (Ok true, mkWorld (<[url := "pending"]> (visitedlinks w)) (events w))) ∧
  (∀ w, is_Some (visitedlinks w !! url) → claim url w = (Ok false, w)) ∧
  (∀ w, (claim url (claim url w).2).1 = Ok false) ∧
  (∀ s i j acts s1 s2 s3,
     visitedlinks (world s) !! url = None →
     pool s !! i = Some (TNew (CScrape url)) →
     step (Start i) s = Some s1 →
     exec acts s1 = Some s2 →
     pool s2 !! j = Some (TNew (CScrape url)) →
     step (Start j) s2 = Some s3 →
     pool s1 !! i = Some (TFetching url) ∧
     visitedlinks (world s1) = <[url := "pending"]> (visitedlinks (world s)) ∧
     pool s3 = <[j := TDone (Ok tt)]> (pool s2) ∧
     world s3 = world s2) ∧
  (∀ disk acts s, exec acts (main disk) = Some s → NoDup (visits (events (world s)))).
Proof.
  split; [|split; [|split; [|split; [|split]]]].
  - intros w. destruct (visitedlinks w !! url) as [v|] eqn:E.
    + rewrite claim_known by eauto. done.
    + by rewrite claim_fresh.
  - apply claim_fresh.
  - apply claim_known.
  - intros w. destruct (visitedlinks w !! url) as [v|] eqn:E.
    + rewrite (claim_known url w) by eauto. simpl. rewrite claim_known by eauto. done.
    + rewrite (claim_fresh url w E). simpl. rewrite claim_known; [done|].
      simpl. rewrite lookup_insert_eq. eauto.
  - intros s i j acts s1 s2 s3 Hfresh Hi Hstart Hexec Hj Hstart'.
    unfold step, step_task in Hstart, Hstart'.
    destruct (main_done (pool s)); [done|]. destruct (main_done (pool s2)); [done|].
    rewrite Hi in Hstart. rewrite Hj in Hstart'.
    rewrite (scrape_begin_fresh url _ Hfresh) in Hstart.
    injection Hstart as <-. simpl in *.
    assert (is_Some (visitedlinks (world s2) !! url)) as Hknown.
    { apply elem_of_dom. apply (exec_ledger_grows _ _ _ Hexec). simpl.
      apply elem_of_dom. rewrite lookup_insert_eq. eauto. }
    rewrite (scrape_begin_known url _ Hknown) in Hstart'.
    injection Hstart' as <-. simpl.
    split; [|done]. apply list_lookup_insert_eq. by eapply lookup_lt_Some.
  - intros disk acts s H. by apply pages_claimed_once in H as [? _].
Qed.

End Crawl.

(** ** Fetching *)

Lemma status_on_disk_save (disk : option (gmap string string)) (evs : list Event)
    (p : string) (ledger : gmap string string) :
  status_on_disk disk (evs ++ [ESave p ledger]) = Some ledger.
Proof.
  revert disk. induction evs as [|e evs IH]; intros disk; [reflexivity|].
  destruct e; simpl; apply IH.
Qed.

Section Fetch.
Context {L : Platform} {S : Setup}.

(** C9. [fetch] hands back the page exactly when the status is 200: with
    status 200 it returns what reading the body gives, and with any other
    status, 201 and 204 included, it returns [None]. *)
Theorem fetch_only_200 (status : Z) (body : Outcome string) (w : World) :
  (status = 200 →
   fetch (Response status body) w = (content ← body; Ok (Some content), w)) ∧
  (status ≠ 200 → fetch (Response status body) w = (Ok None, w)) ∧
  (∀ content, (fetch (Response status body) w).1 = Ok (Some content)
              ↔ status = 200 ∧ body = Ok content) ∧
  fetch (Response 201 body) w = (Ok None, w) ∧
  fetch (Response 204 body) w = (Ok None, w).
Proof.
  unfold fetch. run. split; [|split; [|split]].
  - intros ->. simpl. by destruct body.
  - intros H. apply Z.eqb_neq in H. by rewrite H.
  - intros content. destruct (Z.eqb_spec status 200) as [->|Hne].
    + destruct body as [c|e]; simpl; split.
      * by intros [= ->].
      * by intros [_ [= ->]].
      * done.
      * by intros [_ ?].
    + simpl. split; [done|]. by intros [? _].
  - done.
Qed.

Lemma save_status_ok (w : World) :
  open_ok status_file = true →
  save_status w =
    (Ok tt, mkWorld (visitedlinks w) (events w ++ [ESave status_file (visitedlinks w)])).
Proof. intros H. unfold save_status, open_file. rewrite H. reflexivity. Qed.

Lemma save_status_fails (w : World) :
  open_ok status_file = false →
  save_status w = (Raise ("OSError: " +:+ status_file), w).
Proof. intros H. unfold save_status, open_file. rewrite H. reflexivity. Qed.

Lemma scrape_fetched_not_200 (url : string) (status : Z) (body : Outcome string) (w : World) :
  status ≠ 200 →
  scrape_fetched url (Response status body) w =
    (Ok Return, mkWorld (<[url := "failed"]> (visitedlinks w)) (events w)).
Proof.
  intros H. apply Z.eqb_neq in H. unfold scrape_fetched, fetch. run. by rewrite H.
Qed.

(** C10. When the answer to a page's request has a status other than 200,
    [scrape] writes [failed] into the dictionary in memory and returns:
    it adds no event, so [save_status] is not called and the status file
    holds what it held; no task is added for the page.  The entry reaches
    the file with the next [save_status] of a page that completes. *)
Theorem failed_fetch_not_saved (url : string) (status : Z) (body : Outcome string)
    (s : Sys) (i : nat) :
  status ≠ 200 →
  pool s !! i = Some (TFetching url) →
  main_done (pool s) = false →
  ∃ w',
    scrape_fetched url (Response status body) (world s) = (Ok Return, w') ∧
    step (Deliver i (Response status body)) s
      = Some (mkSys w' (<[i := TDone (Ok tt)]> (pool s))) ∧
    visitedlinks w' = <[url := "failed"]> (visitedlinks (world s)) ∧
    events w' = events (world s) ∧
    (∀ disk, status_on_disk disk (events w') = status_on_disk disk (events (world s))) ∧
    (∀ w2, open_ok status_file = true →
           visitedlinks w2 !! url = Some "failed" →
           ∃ w3 saved, scrape_woken w2 = (Ok tt, w3) ∧
                       (∀ disk, status_on_disk disk (events w3) = Some saved) ∧
                       saved !! url = Some "failed").
Proof.
  intros Hst Hi Hmain. eexists. split; [by apply scrape_fetched_not_200|].
  split.
  { unfold step, step_task. rewrite Hmain, Hi.
    by rewrite scrape_fetched_not_200. }
  split; [done|]. split; [done|]. split; [done|].
  intros w2 Hopen Hfailed. unfold scrape_woken. rewrite save_status_ok by done.
  eexists _, (visitedlinks w2). split; [done|]. split; [|done].
  intros disk. apply status_on_disk_save.
Qed.

(** C4, on the code.  An exception of the transport leaves [fetch], which
    has no handler, and leaves [scrape], whose [try] starts after the
    fetch: a crawl whose first request fails this way ends with the
    exception raised out of [main], the URL still [pending], and nothing
    saved.  [download_pdf] catches the same exception and marks its URL
    [failed]. *)
Theorem transport_error_escapes (e : Exn) (url : string) (w : World) :
  scrape_fetched url (TransportError e) w = (Raise e, w) ∧
  exec [Start 0%nat; Deliver 0%nat (TransportError e)] (main None)
    = Some (mkSys (mkWorld {[mainurl := "pending"]}
                           [EPrint (Visiting mainurl); EGet mainurl])
                  [TDone (Raise e)]) ∧
  download_pdf url (TransportError e) w
    = (Ok tt, mkWorld (<[url := "failed"]> (visitedlinks w))
                      (events w ++ [EPrint (PdfFailed url e)])).
Proof.
  split; [reflexivity|]. split; [|reflexivity].
  unfold exec, step, step_task, main. simpl.
  rewrite scrape_begin_fresh by apply lookup_empty. simpl.
  reflexivity.
Qed.

End Fetch.

(** ** Links *)

Lemma elem_of_logged (u : string) (us : list string) :
  EAppend "extralinks.txt" (u +:+ newline) ∈ logged us ↔ u ∈ us.
Proof.
  unfold logged. rewrite list_elem_of_fmap. split.
  - intros (v & [= Hv] & Hin). apply str_app_inv_tail in Hv. by subst.
  - intros Hin. by exists u.
Qed.

Section Links.
Context {L : Platform} {S : Setup}.

Lemma check_link_true (url : string) :
  check_link url = Ok true ↔ ∃ p, urlparse url = Ok p ∧ netloc p = domain.
Proof.
  unfold check_link. destruct (urlparse url) as [p|e]; simpl.
  - split.
    + intros [= H]. apply bool_decide_eq_true in H. eauto.
    + intros (q & [= <-] & H). by rewrite bool_decide_eq_true_2.
  - split; [done|]. by intros (q & ? & _).
Qed.

Lemma check_link_false (url : string) :
  check_link url = Ok false ↔ ∃ p, urlparse url = Ok p ∧ netloc p ≠ domain.
Proof.
  unfold check_link. destruct (urlparse url) as [p|e]; simpl.
  - split.
    + intros [= H]. apply bool_decide_eq_false in H. eauto.
    + intros (q & [= <-] & H). by rewrite bool_decide_eq_false_2.
  - split; [done|]. by intros (q & ? & _).
Qed.

Lemma add_to_extralinks_ok (url : string) (w w' : World) :
  add_to_extralinks url w = (Ok tt, w') →
  w' = mkWorld (visitedlinks w) (events w ++ logged [url]).
Proof.
  unfold add_to_extralinks, open_file. destruct (open_ok "extralinks.txt"); run.
  - by intros [= <-].
  - done.
Qed.

Lemma extract_links_loop_spec (hrefs : list string) (base : string) (acc : gset string)
    (w w' : World) (links : gset string) :
  extract_links_loop hrefs base acc w = (Ok links, w') →
  ∃ fulls,
    Forall2 (fun href full => urljoin base href = Ok full) hrefs fulls ∧
    Forall (fun u => ∃ b, check_link u = Ok b) fulls ∧
    links = acc ∪ list_to_set (filter (fun u => check_link u = Ok true) fulls) ∧
    visitedlinks w' = visitedlinks w ∧
    events w' = events w ++ logged (filter (fun u => check_link u = Ok false) fulls).
Proof.
  revert acc w. induction hrefs as [|href rest IH]; intros acc w.
  - simpl. intros [= <- <-]. exists []. split; [constructor|]. split; [constructor|].
    split; [by rewrite filter_nil, list_to_set_nil, (right_id_L ∅ (∪))|].
    split; [done|]. by rewrite app_nil_r.
  - simpl. run.
    destruct (urljoin base href) as [full|e] eqn:Ej; [|done].
    destruct (check_link full) as [[|]|e] eqn:Ec; [| |done].
    + intros H. apply IH in H as (fulls & Hj & Hc & -> & Hl & He).
      exists (full :: fulls). split; [by constructor|]. split; [constructor; eauto|].
      rewrite !filter_cons, Ec.
      rewrite decide_True by done. rewrite decide_False by done.
      split; [by rewrite list_to_set_cons, (assoc_L (∪))|]. done.
    + destruct (add_to_extralinks full w) as [[[]|e] w1] eqn:Ea; [|done].
      apply add_to_extralinks_ok in Ea as ->.
      intros H. apply IH in H as (fulls & Hj & Hc & -> & Hl & He).
      exists (full :: fulls). split; [by constructor|]. split; [constructor; eauto|].
      rewrite !filter_cons, Ec.
      rewrite decide_False by done. rewrite decide_True by done.
      split; [done|]. split; [done|].
      rewrite He. simpl. by rewrite <- app_assoc.
Qed.

(** C6, as the code has it.  [check_link] answers true exactly when the
    [netloc] of the URL, that is the host together with any user
    information and port, in the letter case of the URL, equals the
    configured domain character for character; so it answers true only for
    a URL whose host is the host of the domain, but not for every such URL.
    When [extract_links] returns, every [href] of the page has been
    resolved against the base URL; a resolved URL outside the domain in
    this sense has a line in the external-link log and is not in the
    returned set, and one inside the domain is in the returned set and has
    no line. *)
Theorem extract_links_partition (page : soup) (base : string) (w w' : World)
    (links : gset string) :
  (∀ url, check_link url = Ok true ↔ ∃ p, urlparse url = Ok p ∧ netloc p = domain) ∧
  (∀ url, check_link url = Ok false ↔ ∃ p, urlparse url = Ok p ∧ netloc p ≠ domain) ∧
  (∀ url p, urlparse url = Ok p → check_link url = Ok true →
            host_of (netloc p) = host_of domain) ∧
  (extract_links page base w = (Ok links, w') →
   ∃ fulls new,
     Forall2 (fun href full => urljoin base href = Ok full) (find_all_a_href page) fulls ∧
     events w' = events w ++ new ∧
     new = logged (filter (fun u => check_link u = Ok false) fulls) ∧
     visitedlinks w' = visitedlinks w ∧
     (∀ u, u ∈ links ↔ u ∈ fulls ∧ check_link u = Ok true) ∧
     (∀ u, u ∈ fulls → check_link u = Ok false →
           EAppend "extralinks.txt" (u +:+ newline) ∈ new ∧ u ∉ links) ∧
     (∀ u, u ∈ fulls → check_link u = Ok true →
           u ∈ links ∧ EAppend "extralinks.txt" (u +:+ newline) ∉ new)).
Proof.
  split; [apply check_link_true|]. split; [apply check_link_false|].
  split.
  { intros url p Hp [q [Hq Hn]]%check_link_true. rewrite Hp in Hq.
    injection Hq as <-. by rewrite Hn. }
  intros H. apply extract_links_loop_spec in H as (fulls & Hj & Hc & -> & Hl & He).
  exists fulls, (logged (filter (fun u => check_link u = Ok false) fulls)).
  assert (∀ u, u ∈ (∅ : gset string) ∪ list_to_set (filter (fun u => check_link u = Ok true) fulls)
               ↔ u ∈ fulls ∧ check_link u = Ok true) as Hin.
  { intros u. rewrite (left_id_L ∅ (∪)), elem_of_list_to_set, list_elem_of_filter.
    split; intros [? ?]; done. }
  repeat split; try done.
  - by apply Hin.
  - by apply Hin.
  - intros [? ?]. by apply Hin.
  - apply elem_of_logged, list_elem_of_filter. done.
  - rewrite Hin. intros [_ Ht]. congruence.
  - by apply Hin.
  - rewrite elem_of_logged, list_elem_of_filter. intros [Hf _]. congruence.
Qed.

End Links.

(** ** Errors while a page is processed *)

Section Processing.
Context {L : Platform} {S : Setup}.

Lemma scrape_page_raises (url content : string) (w : World) (e : Exn) (w' : World) :
  scrape_page url content w = (Raise e, w') ↔ page_error url content w e w'.
Proof.
  unfold scrape_page. run. split.
  - destruct (BeautifulSoup content) as [page|e0] eqn:Ep.
    + destruct (extract_links page url w) as [[links|e1] w1] eqn:El.
      * destruct (process_page page url w1) as [[[]|e2] w2] eqn:Et; [done|].
        intros [= <- <-]. by eapply text_error.
      * intros [= <- <-]. by eapply links_error.
    + intros [= <- <-]. by apply parse_error.
  - intros [Hp ->|page Hp Hl|page links w1 Hp Hl Ht]; rewrite Hp; [done| |].
    + by rewrite Hl.
    + by rewrite Hl, Ht.
Qed.

(** C8. When the request of a page is answered with status 200 and the
    parsing, the link extraction or the text processing of the page then
    raises, [scrape] catches the exception and prints it; the exception
    does not leave [scrape], which goes on to [save_status] and returns (so
    its task ends without an exception when the status file can be
    written); and the entry of the page stays [success]. *)
Theorem processing_error_caught (url content : string) (e : Exn) (s : Sys) (i : nat)
    (w1 : World) :
  pool s !! i = Some (TFetching url) →
  main_done (pool s) = false →
  page_error url content
    (mkWorld (<[url := "success"]> (visitedlinks (world s))) (events (world s))) e w1 →
  ∃ res w2,
    scrape_fetched url (Response 200 (Ok content)) (world s) = (res, w2) ∧
    res = (if open_ok status_file then Ok Return
           else Raise ("OSError: " +:+ status_file)) ∧
    step (Deliver i (Response 200 (Ok content))) s
      = Some (mkSys w2 (<[i := TDone (if open_ok status_file then Ok tt
                                      else Raise ("OSError: " +:+ status_file))]> (pool s))) ∧
    visitedlinks w2 = <[url := "success"]> (visitedlinks (world s)) ∧
    visitedlinks w2 !! url = Some "success" ∧
    events w2 = events w1 ++ EPrint (ProcessingError url e)
                  :: (if open_ok status_file
                      then [ESave status_file (visitedlinks w2)] else []).
Proof.
  intros Hi Hmain Herr.
  pose proof (same_ledger_scrape_page url content
                (mkWorld (<[url := "success"]> (visitedlinks (world s))) (events (world s))))
    as Hsame.
  apply scrape_page_raises in Herr. rewrite Herr in Hsame.
  unfold same_ledger in Hsame. simpl in Hsame.
  assert (∃ res w2,
    scrape_fetched url (Response 200 (Ok content)) (world s) = (res, w2) ∧
    res = (if open_ok status_file then Ok Return
           else Raise ("OSError: " +:+ status_file)) ∧
    visitedlinks w2 = <[url := "success"]> (visitedlinks (world s)) ∧
    events w2 = events w1 ++ EPrint (ProcessingError url e)
                  :: (if open_ok status_file
                      then [ESave status_file (visitedlinks w2)] else []))
    as (res & w2 & Hrun & Hres & Hledger & Hevents).
  { unfold scrape_fetched, fetch, scrape_except.
    change (200 =? 200) with true. run. rewrite Herr.
    destruct (open_ok status_file) eqn:Ho.
    - rewrite save_status_ok by done. simpl.
      eexists _, _. split; [reflexivity|]. simpl.
      split; [done|]. split; [done|]. by rewrite <- app_assoc.
    - rewrite save_status_fails by done. simpl.
      eexists _, _. split; [reflexivity|]. simpl. done. }
  exists res, w2. split; [done|]. split; [done|].
  split.
  { unfold step, step_task. rewrite Hmain, Hi, Hrun, Hres.
    by destruct (open_ok status_file). }
  split; [done|]. split; [|done].
  rewrite Hledger. apply lookup_insert_eq.
Qed.

End Processing.

(** ** Routing of links *)

Global Instance no_text_written_preorder : PreOrder no_text_written.
Proof.
  split.
  - by intros w p c.
  - intros x y z Hxy Hyz p c H. by apply Hxy, Hyz.
Qed.

Lemma no_text_written_emit (e : Event) :
  (∀ p c, e ≠ EWriteText p c) → keeps no_text_written (emit e).
Proof.
  intros He w p c. simpl. rewrite elem_of_app, list_elem_of_singleton.
  intros [H|H]; [done|]. by destruct (He p c).
Qed.

Lemma no_text_written_set_status (url v : string) :
  keeps no_text_written (set_status url v).
Proof. by intros w p c. Qed.

#[global] Hint Resolve no_text_written_set_status : keeps.
#[global] Hint Extern 1 (keeps no_text_written (emit _)) =>
  apply no_text_written_emit; intros ? ?; discriminate : keeps.

Section Routing.
Context {L : Platform} {S : Setup}.

Lemma route_same_url (link : string) (c : Coroutine) :
  route link = Some c → c = CDownload link ∨ c = CScrape link.
Proof.
  unfold route. destruct (existsb _ _); [done|].
  destruct (Str.endswith _ _); intros [= <-]; eauto.
Qed.

Lemma no_text_written_open_file (p : string) : keeps no_text_written (open_file p).
Proof. unfold open_file. keeps_auto. Qed.

Lemma no_text_written_download_pdf (url : string) (r : Reply) :
  keeps no_text_written (download_pdf url r).
Proof.
  unfold download_pdf, write_pdf. pose proof no_text_written_open_file. keeps_auto.
Qed.

(** C5, as the code has it.  A link whose text, lower-cased, ends in
    [.pdf] and does not contain [lxml] is given to [download_pdf] and not
    to [scrape]; [download_pdf] writes no text file, whatever the answer to
    its request.  The seed URL is always given to [scrape]. *)
Theorem pdf_links_downloaded (link : string) :
  Str.endswith (Str.lower link) ".pdf" = true →
  Str.contains "lxml" (Str.lower link) = false →
  route link = Some (CDownload link) ∧
  (∀ links, link ∈ links →
            CDownload link ∈ make_tasks links ∧ CScrape link ∉ make_tasks links) ∧
  (∀ r w p c, EWriteText p c ∈ events (download_pdf link r w).2 →
              EWriteText p c ∈ events w) ∧
  (∀ disk, pool (main disk) = [TNew (CScrape mainurl)]).
Proof.
  intros Hpdf Hlxml.
  assert (route link = Some (CDownload link)) as Hroute.
  { unfold route. simpl. by rewrite Hlxml, Hpdf. }
  split; [done|]. split; [|split; [|done]].
  - intros links Hin. unfold make_tasks. rewrite !list_elem_of_omap. split.
    + by exists link.
    + intros (l & Hl & Hr). destruct (route_same_url _ _ Hr) as [[=]|[= ->]].
      congruence.
  - intros r w p c. apply no_text_written_download_pdf.
Qed.

End Routing.

(** ** The crawler at work *)

Module Runs.
Import Sample.

#[local] Existing Instance sample_platform.

(** line 205: the domain of each setup is the [netloc] of its main URL *)
Example domain_of_mainurl :
  Forall (fun S : Setup => (p ← urlparse (@mainurl S); Ok (netloc p)) = Ok (@domain S))
         [wsca; host_tld; example_com].
Proof. repeat constructor. Qed.

(** C2, on the code.  The root page links to [/a.pdf] and to [/b], and
    [/b] links to [/a.pdf] again.  Both pages start a [download_pdf] for
    it; the first is answered 200 and the second 503.  The entry of the
    PDF, which never was [pending], goes from [success] to [failed]. *)
Theorem pdf_status_overwritten :
  ∃ s1 s2 s3,
    exec (S:=wsca)
      [Start 0%nat; Deliver 0%nat (Response 200 (Ok "href=/a.pdf href=/b"));
       Start 1%nat; Start 2%nat]
      (main (S:=wsca) None) = Some s1 ∧
    visitedlinks (world s1) !! paper = None ∧
    exec (S:=wsca)
      [Deliver 1%nat (Response 200 (Ok "%PDF"));
       Deliver 2%nat (Response 200 (Ok "href=/a.pdf")); Start 3%nat] s1 = Some s2 ∧
    visitedlinks (world s2) !! paper = Some "success" ∧
    exec (S:=wsca) [Deliver 3%nat (Response 503 (Ok ""))] s2 = Some s3 ∧
    visitedlinks (world s3) !! paper = Some "failed" ∧
    requests (events (world s3)) = [root; paper; "https://www.wscacademy.org/b"; paper].
Proof.
  eexists _, _, _.
  split; [vm_compute; reflexivity|]. split; [vm_compute; reflexivity|].
  split; [vm_compute; reflexivity|]. split; [vm_compute; reflexivity|].
  split; [vm_compute; reflexivity|]. split; vm_compute; reflexivity.
Qed.

(** C3, on the code.  The crawl starts on a dictionary in which the PDF is
    already [success]; the root page links to it.  [download_pdf] requests
    it again.  A page in that situation is not requested: [scrape] returns
    at its first line, so that no schedule and no answers make the crawl
    announce a URL of the loaded dictionary. *)
Theorem resumed_crawl_refetches_pdf :
  (∃ s,
     exec (S:=wsca)
       [Start 0%nat; Deliver 0%nat (Response 200 (Ok "href=/a.pdf")); Start 1%nat]
       (main (S:=wsca) (Some {[paper := "success"]})) = Some s ∧
     requests (events (world s)) = [root; paper] ∧
     pool s !! 1%nat = Some (TGetting paper)) ∧
  exec (S:=wsca) [Start 0%nat] (main (S:=wsca) (Some {[root := "success"]}))
    = Some (mkSys (mkWorld {[root := "success"]} []) [TDone (Ok tt)]) ∧
  (∀ acts s,
     exec (S:=wsca) acts (main (S:=wsca) (Some {[paper := "success"]})) = Some s →
     paper ∉ visits (events (world s))).
Proof.
  split; [|split].
  - eexists. split; [vm_compute; reflexivity|]. split; vm_compute; reflexivity.
  - vm_compute. reflexivity.
  - intros acts s H Hin.
    apply pages_claimed_once in H as [_ H]. apply H in Hin as [Hin _].
    apply Hin. simpl. rewrite dom_singleton. by apply elem_of_singleton.
Qed.

(** C5, as stated, fails.  The path of the link ends in [.pdf], but the
    link itself ends in its query: it is given to [scrape], and the answer
    to its request is parsed and saved as a text file. *)
Lemma pdf_path_scraped :
  (p ← urlparse versioned; Ok (Str.endswith (path p) ".pdf")) = Ok true ∧
  route versioned = Some (CScrape versioned) ∧
  ∃ s,
    exec (S:=wsca)
      [Start 0%nat; Deliver 0%nat (Response 200 (Ok "href=/a.pdf?v=1"));
       Start 1%nat; Deliver 1%nat (Response 200 (Ok "%PDF-1.4"))]
      (main (S:=wsca) None) = Some s ∧
    text_files (events (world s))
      = [("wscadata/www.wscacademy.org_index.txt", "href=/a.pdf?v=1");
         ("wscadata/www.wscacademy.org_a.pdf.txt", "%PDF-1.4")].
Proof.
  split; [reflexivity|]. split; [reflexivity|].
  eexists. split; vm_compute; reflexivity.
Qed.

Example fetching_root_reached :
  exec (S:=wsca) [Start 0%nat] (main (S:=wsca) None) = Some fetching_root.
Proof. vm_compute. reflexivity. Qed.

Example rivals_reached :
  exec (S:=wsca)
    [Start 0%nat; Deliver 0%nat (Response 200 (Ok "href=/b href=/c"));
     Start 1%nat; Start 2%nat;
     Deliver 1%nat (Response 200 (Ok "href=/d"));
     Deliver 2%nat (Response 200 (Ok "href=/d"))]
    (main (S:=wsca) None) = Some rivals.
Proof. vm_compute. reflexivity. Qed.

(** The first of the two is answered 404 before the second starts; the
    second returns at once. *)
Lemma claim_once_witness :
  ∃ s1 s2 s3,
    step (S:=wsca) (Start 3%nat) rivals = Some s1 ∧
    exec (S:=wsca) [Deliver 3%nat (Response 404 (Ok ""))] s1 = Some s2 ∧
    step (S:=wsca) (Start 4%nat) s2 = Some s3 ∧
    pool s1 !! 3%nat = Some (TFetching about_d) ∧
    pool s3 = <[4%nat := TDone (Ok tt)]> (pool s2) ∧
    world s3 = world s2.
Proof.
  eexists _, _, _.
  split; [vm_compute; reflexivity|].
  split; [vm_compute; reflexivity|].
  split; [vm_compute; reflexivity|].
  destruct (claim_once (S:=wsca) about_d) as (_ & _ & _ & _ & H & _).
  edestruct (H rivals 3%nat 4%nat [Deliver 3%nat (Response 404 (Ok ""))])
    as (H1 & _ & H3 & H4).
  - vm_compute; reflexivity.
  - vm_compute; reflexivity.
  - vm_compute; reflexivity.
  - vm_compute; reflexivity.
  - vm_compute; reflexivity.
  - vm_compute; reflexivity.
  - split; [exact H1|]. split; [exact H3|exact H4].
Defined.

Lemma create_file_spec_witness :
  urlparse "https://host.tld/a/b" = Ok (mkParse "https" "host.tld" "/a/b" "" "" "") ∧
  create_file (S:=host_tld) "https://host.tld/a/b" = Ok "data/host.tld_a_b.txt" ∧
  create_file (S:=host_tld) "https://host.tld/" = Ok "data/host.tld_index.txt" ∧
  ∃ pdf, pdf_filename (S:=host_tld) "https://host.tld/a/b" = Ok pdf ∧
         Str.endswith pdf ".pdf" = true.
Proof.
  assert (urlparse "https://host.tld/a/b" = Ok (mkParse "https" "host.tld" "/a/b" "" "" ""))
    as Hab by (vm_compute; reflexivity).
  assert (urlparse "https://host.tld/" = Ok (mkParse "https" "host.tld" "/" "" "" ""))
    as Hroot by (vm_compute; reflexivity).
  split; [exact Hab|].
  destruct (create_file_spec (S:=host_tld) _ _ Hab) as (dir & pdf & Hc & Hd & _ & Hp & He & _).
  destruct (create_file_spec (S:=host_tld) _ _ Hroot) as (dir' & pdf' & Hc' & Hd' & _).
  split; [by rewrite Hc, <- Hd|]. split; [by rewrite Hc', <- Hd'|].
  by exists pdf.
Defined.

Lemma failed_fetch_not_saved_witness :
  ∃ w',
    step (S:=wsca) (Deliver 0%nat (Response 404 (Ok "Not Found"))) fetching_root
      = Some (mkSys w' [TDone (Ok tt)]) ∧
    visitedlinks w' = <[root := "failed"]> (visitedlinks (world fetching_root)) ∧
    events w' = events (world fetching_root).
Proof.
  destruct (failed_fetch_not_saved (S:=wsca) root 404 (Ok "Not Found") fetching_root 0%nat)
    as (w' & _ & Hstep & Hl & He & _).
  - discriminate.
  - reflexivity.
  - reflexivity.
  - exists w'. split; [exact Hstep|]. split; [exact Hl|exact He].
Defined.

Lemma processing_error_caught_witness :
  ∃ w2,
    step (S:=wsca) (Deliver 0%nat (Response 200 (Ok broken_page))) fetching_root
      = Some (mkSys w2 [TDone (Ok tt)]) ∧
    visitedlinks w2 !! root = Some "success" ∧
    printed (events w2)
      = ["Visiting: https://www.wscacademy.org/";
         "An error occurred while processing https://www.wscacademy.org/: ValueError: Invalid IPv6 URL"].
Proof.
  edestruct (processing_error_caught (S:=wsca) root broken_page
               "ValueError: Invalid IPv6 URL" fetching_root 0%nat)
    as (res & w2 & _ & _ & Hstep & _ & Hl & He).
  - reflexivity.
  - reflexivity.
  - eapply links_error; [reflexivity|]. vm_compute. reflexivity.
  - exists w2. split; [exact Hstep|]. split; [exact Hl|]. rewrite He. reflexivity.
Defined.

Lemma pdf_links_downloaded_witness :
  route paper = Some (CDownload paper) ∧
  make_tasks [paper; about_d] = [CDownload paper; CScrape about_d].
Proof.
  destruct (pdf_links_downloaded (S:=wsca) paper) as (H & _).
  - reflexivity.
  - reflexivity.
  - split; [exact H|reflexivity].
Defined.

Lemma extract_links_partition_witness :
  extract_links (S:=example_com) linking_page "http://example.com/" (mkWorld ∅ [])
    = (Ok {[about]}, mkWorld ∅ (logged [other])) ∧
  about ∈ ({[about]} : gset string) ∧
  other ∉ ({[about]} : gset string).
Proof.
  assert (extract_links (S:=example_com) linking_page "http://example.com/" (mkWorld ∅ [])
          = (Ok {[about]}, mkWorld ∅ (logged [other]))) as Hrun
    by (vm_compute; reflexivity).
  split; [exact Hrun|].
  pose proof (extract_links_partition (S:=example_com) linking_page "http://example.com/"
                (mkWorld ∅ []) (mkWorld ∅ (logged [other])) {[about]}) as (_ & _ & _ & H).
  destruct (H Hrun) as (fulls & new & Hj & He & Hn & _ & _ & Hout & Hins).
  apply Forall2_cons_inv_l in Hj as (u1 & rest & H1 & Hj & ->).
  apply Forall2_cons_inv_l in Hj as (u2 & rest' & H2 & Hj & ->).
  apply Forall2_nil_inv_l in Hj as ->.
  vm_compute in H1. vm_compute in H2.
  injection H1 as <-. injection H2 as <-.
  split; [apply Hins; [apply list_elem_of_here|vm_compute; reflexivity]|].
  apply Hout; [apply list_elem_of_further, list_elem_of_here|vm_compute; reflexivity].
Defined.

(** C6, as stated, fails.  The host of each of the two URLs is the
    configured host, but the [netloc] of the first carries a port and that
    of the second user information: [check_link] answers false for both,
    and [extract_links] writes both into the external-link log and returns
    neither. *)
Lemma same_host_judged_external :
  (p ← urlparse with_port; Ok (netloc p, host_of (netloc p)))
    = Ok ("www.wscacademy.org:443", @domain wsca) ∧
  (p ← urlparse with_user; Ok (netloc p, host_of (netloc p)))
    = Ok ("user@www.wscacademy.org", @domain wsca) ∧
  check_link (S:=wsca) with_port = Ok false ∧
  check_link (S:=wsca) with_user = Ok false ∧
  extract_links (S:=wsca) ported_page root (mkWorld ∅ [])
    = (Ok ∅, mkWorld ∅ (logged [with_port; with_user])).
Proof.
  repeat split; vm_compute; reflexivity.
Qed.

End Runs.

(** * Further properties *)

(** ** Relations kept along a crawl, again *)

Global Instance saves_fresh_preorder : PreOrder saves_fresh.
Proof.
  split.
  - intros x. split; [done|]. intros p l H. by left.
  - intros x y z [Gxy Sxy] [Gyz Syz]. split; [by etrans|].
    intros p l H. apply Syz in H as [H|[H1 H2]].
    + apply Sxy in H as [H|[H1 H2]]; [by left|]. right. split; [done|].
      by etrans.
    + right. split; [|done]. by etrans.
Qed.

Global Instance values_ok_preorder : PreOrder values_ok.
Proof.
  split.
  - intros x url v H. by left.
  - intros x y z Hxy Hyz url v H. apply Hyz in H as [H|H]; [|by right].
    by apply Hxy.
Qed.

(** A relation kept by every plain event, by [save_status], by the two
    final marks and by the start of [scrape] and of [download_pdf] is kept
    by every turn of the loop. *)
Section Turns.
Context {L : Platform} {S : Setup}.
Context (R : World → World → Prop) `{!PreOrder R}.

Hypothesis R_plain : ∀ e, is_plain e = true → keeps R (emit e).
Hypothesis R_save : keeps R save_status.
Hypothesis R_failed : ∀ url, keeps R (set_status url "failed").
Hypothesis R_success : ∀ url, keeps R (set_status url "success").
Hypothesis R_begin : ∀ url, keeps R (scrape_begin url).
Hypothesis R_download : ∀ url, keeps R (download_begin url).

#[local] Hint Extern 1 (keeps _ (emit _)) => apply R_plain; reflexivity : keeps.
#[local] Hint Resolve R_save R_failed R_success : keeps.

Lemma turn_open_file (p : string) : keeps R (open_file p).
Proof. unfold open_file. keeps_auto. Qed.

#[local] Hint Resolve turn_open_file : keeps.

Lemma turn_write_text (url content : string) : keeps R (write_text url content).
Proof. unfold write_text. keeps_auto. Qed.

Lemma turn_write_pdf (url content : string) : keeps R (write_pdf url content).
Proof. unfold write_pdf. keeps_auto. Qed.

Lemma turn_add_to_extralinks (url : string) : keeps R (add_to_extralinks url).
Proof. unfold add_to_extralinks. keeps_auto. Qed.

#[local] Hint Resolve turn_write_text turn_write_pdf turn_add_to_extralinks : keeps.

Lemma turn_extract_links_loop (hrefs : list string) (base : string) (acc : gset string) :
  keeps R (extract_links_loop hrefs base acc).
Proof.
  revert acc. induction hrefs as [|href rest IH]; intros acc; simpl; keeps_auto.
Qed.

#[local] Hint Resolve turn_extract_links_loop : keeps.

Lemma turn_scrape_page (url content : string) : keeps R (scrape_page url content).
Proof. unfold scrape_page, extract_links, process_page. keeps_auto. Qed.

Lemma turn_scrape_except (url : string) (e : Exn) : keeps R (scrape_except url e).
Proof. unfold scrape_except. keeps_auto. Qed.

#[local] Hint Resolve turn_scrape_page turn_scrape_except : keeps.

Lemma turn_scrape_fetched (url : string) (r : Reply) : keeps R (scrape_fetched url r).
Proof. unfold scrape_fetched, fetch, scrape_sleep. keeps_auto. Qed.

Lemma turn_scrape_gathered (url : string) (res : Outcome unit) :
  keeps R (scrape_gathered url res).
Proof. unfold scrape_gathered, scrape_sleep. keeps_auto. Qed.

Lemma turn_scrape_woken : keeps R scrape_woken.
Proof. apply R_save. Qed.

Lemma turn_download_pdf (url : string) (r : Reply) : keeps R (download_pdf url r).
Proof. unfold download_pdf. keeps_auto. Qed.

Lemma turn_step (a : Action) (s s' : Sys) :
  step a s = Some s' → R (world s) (world s').
Proof.
  unfold step, step_task. intros Hs.
  destruct (main_done (pool s)); [done|].
  destruct a as [i|i r|i [k|]|i];
    destruct (pool s !! i) as [[[url|url]|url|url kids|url|url|res]|]; try done.
  - run_segment (R_begin url (world s)).
  - run_segment (R_download url (world s)).
  - run_segment (turn_scrape_fetched url r (world s)).
  - run_segment (turn_download_pdf url r (world s)).
  - destruct (bool_decide (k ∈ kids)); [|done].
    destruct (pool s !! k) as [[| | | | |[|e]]|]; try done.
    run_segment (turn_scrape_gathered url (Raise e) (world s)).
  - destruct (forallb _ kids); [|done].
    run_segment (turn_scrape_gathered url (Ok tt) (world s)).
  - run_segment (turn_scrape_woken (world s)).
Qed.

Lemma turn_exec (acts : list Action) (s s' : Sys) :
  exec acts s = Some s' → R (world s) (world s').
Proof.
  revert s. induction acts as [|a acts IH]; intros s; simpl.
  - intros [= ->]. reflexivity.
  - destruct (step a s) as [s1|] eqn:E; [|done]. intros H.
    etrans; [by eapply turn_step|by apply IH].
Qed.

End Turns.

Lemma saves_fresh_same_events (w w' : World) :
  ledger_grows w w' → events w' = events w → saves_fresh w w'.
Proof. intros Hg He. split; [done|]. intros p l H. left. by rewrite <- He. Qed.

Lemma saves_fresh_plain (e : Event) : is_plain e = true → keeps saves_fresh (emit e).
Proof.
  intros He w. split; [apply ledger_grows_emit|]. intros p l. simpl.
  rewrite elem_of_app, list_elem_of_singleton. intros [H | <-]; [by left|simpl in He; discriminate].
Qed.

Lemma saves_fresh_set_status (url v : string) : keeps saves_fresh (set_status url v).
Proof. intros w. apply saves_fresh_same_events; [apply ledger_grows_set_status|done]. Qed.

Lemma values_ok_same_ledger (w w' : World) : same_ledger w w' → values_ok w w'.
Proof. intros H url v Hv. left. by rewrite <- H. Qed.

Lemma values_ok_set_status (url v : string) :
  v ∈ statuses → keeps values_ok (set_status url v).
Proof.
  intros Hv w u x. simpl. destruct (decide (url = u)) as [->|Hne].
  - rewrite lookup_insert_eq. intros [= <-]. by right.
  - rewrite lookup_insert_ne by done. by left.
Qed.

Section Saves.
Context {L : Platform} {S : Setup}.

Lemma saves_fresh_save_status : keeps saves_fresh save_status.
Proof.
  intros w. destruct (open_ok status_file) eqn:Ho.
  - rewrite save_status_ok by done. split; [by intros u|]. intros p l. simpl.
    rewrite elem_of_app, list_elem_of_singleton. intros [H|[= -> ->]]; [by left|].
    by right.
  - rewrite save_status_fails by done. reflexivity.
Qed.

Lemma saves_fresh_scrape_begin (url : string) : keeps saves_fresh (scrape_begin url).
Proof.
  intros w. destruct (visitedlinks w !! url) as [v|] eqn:E.
  - rewrite scrape_begin_known by eauto. reflexivity.
  - rewrite scrape_begin_fresh by done. split; [apply ledger_grows_set_status|].
    intros p l. simpl. rewrite elem_of_app. intros [H|H]; [by left|].
    apply elem_of_cons in H as [|H]; [done|].
    apply elem_of_cons in H as [|H]; [done|]. by apply elem_of_nil in H.
Qed.

Lemma exec_saves_fresh (acts : list Action) (s s' : Sys) :
  exec acts s = Some s' → saves_fresh (world s) (world s').
Proof.
  apply turn_exec; [apply _|apply saves_fresh_plain|apply saves_fresh_save_status| | | |].
  - intros url. apply saves_fresh_set_status.
  - intros url. apply saves_fresh_set_status.
  - apply saves_fresh_scrape_begin.
  - intros url w. split; [apply ledger_grows_emit|]. intros p l. simpl.
    rewrite elem_of_app, list_elem_of_singleton. intros [H|[=]]. by left.
Qed.

Lemma values_ok_scrape_begin (url : string) : keeps values_ok (scrape_begin url).
Proof.
  intros w. destruct (visitedlinks w !! url) as [v|] eqn:E.
  - rewrite scrape_begin_known by eauto. reflexivity.
  - rewrite scrape_begin_fresh by done.
    apply (values_ok_set_status url "pending"). apply list_elem_of_here.
Qed.

Lemma exec_values_ok (acts : list Action) (s s' : Sys) :
  exec acts s = Some s' → values_ok (world s) (world s').
Proof.
  apply turn_exec; [apply _| | | | | |]; [| | | | |by intros url w; apply values_ok_same_ledger].
  - intros e _ w. by apply values_ok_same_ledger.
  - intros w. apply values_ok_same_ledger.
    apply (keeps_save_status same_ledger). intros e _. apply same_ledger_emit.
  - intros url. apply values_ok_set_status. do 2 apply list_elem_of_further.
    apply list_elem_of_here.
  - intros url. apply values_ok_set_status. apply list_elem_of_further, list_elem_of_here.
  - apply values_ok_scrape_begin.
Qed.

(** The first turn of a crawl starts the main task: it claims the seed, or
    finds it claimed and ends. *)
Lemma first_turn (disk : option (gmap string string)) (a : Action) (s1 : Sys) :
  step a (main disk) = Some s1 →
  a = Start 0%nat ∧
  ((load_status disk !! mainurl = None ∧
    s1 = mkSys (mkWorld (<[mainurl := "pending"]> (load_status disk))
                        [EPrint (Visiting mainurl); EGet mainurl])
               [TFetching mainurl]) ∨
   (is_Some (load_status disk !! mainurl) ∧
    s1 = mkSys (mkWorld (load_status disk) []) [TDone (Ok tt)])).
Proof.
  unfold step, step_task, main. simpl.
  destruct a as [[|i]|[|i] r|[|i] [k|]|[|i]]; simpl; try done.
  destruct (load_status disk !! mainurl) as [v|] eqn:E.
  - rewrite scrape_begin_known by (simpl; eauto). intros [= <-]. split; [done|].
    right. eauto.
  - rewrite scrape_begin_fresh by done. intros [= <-]. split; [done|]. left. done.
Qed.

(** Once the main task is done nothing runs. *)
Lemma exec_after_main (acts : list Action) (s s' : Sys) :
  main_done (pool s) = true → exec acts s = Some s' → acts = [] ∧ s' = s.
Proof.
  intros Hd. destruct acts as [|a acts]; simpl.
  - by intros [= ->].
  - unfold step. by rewrite Hd.
Qed.

(** X1. When the seed URL has an entry in the dictionary loaded at the
    start, whatever its value, the crawl is over after its first turn: the
    dictionary is the loaded one and nothing was printed, requested,
    written or saved. *)
Theorem known_seed_ends_crawl (disk : option (gmap string string)) (acts : list Action)
    (s : Sys) :
  is_Some (load_status disk !! mainurl) →
  exec acts (main disk) = Some s →
  world s = mkWorld (load_status disk) [] ∧
  (acts = [] ∨ (acts = [Start 0%nat] ∧ pool s = [TDone (Ok tt)])).
Proof.
  intros Hk. destruct acts as [|a acts]; simpl.
  - intros [= <-]. split; [done|]. by left.
  - destruct (step a (main disk)) as [s1|] eqn:E; [|done].
    apply first_turn in E as [-> [[Hn _]|[_ ->]]].
    + rewrite Hn in Hk. by destruct Hk.
    + intros H. apply exec_after_main in H as [-> ->]; [|done].
      split; [done|]. by right.
Qed.

(** X2. Every dictionary a crawl saves holds the seed URL, every URL of
    the dictionary loaded at the start, and only URLs the dictionary in
    memory holds.  So a crawl started again on a dictionary it saved ends
    at its first turn, with nothing requested. *)
Theorem saved_ledger_has_seed (disk : option (gmap string string)) (acts : list Action)
    (s : Sys) (p : string) (l : gmap string string) :
  exec acts (main disk) = Some s →
  ESave p l ∈ events (world s) →
  mainurl ∈ dom l ∧
  dom (load_status disk) ⊆ dom l ∧
  dom l ⊆ dom (visitedlinks (world s)) ∧
  (∀ acts' s', exec acts' (main (Some l)) = Some s' → world s' = mkWorld l []).
Proof.
  intros Hexec Hsave.
  assert (mainurl ∈ dom l ∧ dom (load_status disk) ⊆ dom l
          ∧ dom l ⊆ dom (visitedlinks (world s))) as (Hseed & Hload & Hmem).
  { destruct acts as [|a acts]; simpl in Hexec.
    - injection Hexec as <-. by apply elem_of_nil in Hsave.
    - destruct (step a (main disk)) as [s1|] eqn:E; [|done].
      apply exec_saves_fresh in Hexec as [Hg Hs].
      apply Hs in Hsave as [Hold|[Hlow Hhigh]].
      + apply first_turn in E as [_ [[_ ->]|[_ ->]]]; simpl in Hold.
        * apply elem_of_cons in Hold as [|Hold]; [done|].
          apply elem_of_cons in Hold as [|Hold]; [done|]. by apply elem_of_nil in Hold.
        * by apply elem_of_nil in Hold.
      + apply first_turn in E as [_ [[_ ->]|[Hk ->]]]; simpl in Hlow.
        * split; [|split; [|done]].
          -- apply Hlow. rewrite dom_insert, elem_of_union, elem_of_singleton. by left.
          -- intros u Hu. apply Hlow. rewrite dom_insert, elem_of_union. by right.
        * split; [|done]. apply Hlow. by apply elem_of_dom. }
  split; [done|]. split; [done|]. split; [done|].
  intros acts' s' H. apply known_seed_ends_crawl in H as [H _]; [done|].
  simpl. by apply elem_of_dom.
Qed.

(** X3. Whatever the schedule and the answers, an entry of the dictionary
    is an entry that was loaded at the start or holds one of [pending],
    [success] and [failed]. *)
Theorem ledger_values (disk : option (gmap string string)) (acts : list Action)
    (s : Sys) (url v : string) :
  exec acts (main disk) = Some s →
  visitedlinks (world s) !! url = Some v →
  load_status disk !! url = Some v ∨ v = "pending" ∨ v = "success" ∨ v = "failed".
Proof.
  intros H Hv. apply exec_values_ok in H. apply H in Hv as [Hv|Hv]; [by left|].
  right. unfold statuses in Hv.
  apply elem_of_cons in Hv as [->|Hv]; [by left|].
  apply elem_of_cons in Hv as [->|Hv]; [by right; left|].
  apply elem_of_cons in Hv as [->|Hv]; [by right; right|]. by apply elem_of_nil in Hv.
Qed.

End Saves.

(** ** File names, again *)

Lemma path_join_suffix (a b : string) : ∃ pre, path_join a b = pre +:+ b.
Proof.
  unfold path_join. destruct (Str.startswith "/" b).
  - by exists "".
  - destruct (Str.is_empty a || Str.endswith a "/").
    + by exists a.
    + exists (a +:+ "/"). by rewrite str_app_assoc.
Qed.

Lemma drop_suffix (n : nat) (s : string) : ∃ y, s = y +:+ Str.drop n s.
Proof.
  revert s. induction n as [|n IH]; intros s; [by exists ""|].
  destruct s as [|a s]; [by exists ""|].
  destruct (IH s) as [y Hy]. exists (String a y). simpl.
  by rewrite str_app_cons, <- Hy.
Qed.

Lemma endswith_same_length (s a b : string) :
  String.length a = String.length b →
  Str.endswith s a = true → Str.endswith s b = true → a = b.
Proof.
  unfold Str.endswith. intros -> [_ Ha]%andb_true_iff [_ Hb]%andb_true_iff.
  apply String.eqb_eq in Ha, Hb. congruence.
Qed.


Section Names.
Context {L : Platform} {S : Setup}.

Lemma create_file_txt (url t : string) :
  create_file url = Ok t → Str.endswith t ".txt" = true.
Proof.
  unfold create_file. destruct (urlparse url) as [p|e]; [|done]. simpl. intros [= <-].
  destruct (path_join_suffix data_folder
              (netloc p +:+ "_" +:+
               (if Str.is_empty (Str.replace "/" "_" (Str.strip "/" (path p)))
                then "index" else Str.replace "/" "_" (Str.strip "/" (path p))) +:+ ".txt"))
    as [pre ->].
  rewrite <- !str_app_assoc. apply endswith_app.
Qed.

Lemma pdf_filename_pdf (url f : string) :
  pdf_filename url = Ok f → Str.endswith f ".pdf" = true.
Proof.
  unfold pdf_filename. destruct (create_file url) as [t|e] eqn:E; [|done]. simpl.
  intros [= <-]. apply create_file_txt in E.
  assert (∃ y, t = y +:+ ".txt") as [y ->].
  { unfold Str.endswith in E. apply andb_true_iff in E as [_ E].
    apply String.eqb_eq in E.
    destruct (drop_suffix (String.length t - String.length ".txt") t) as [y Hy].
    exists y. by rewrite <- E. }
  unfold Str.replace.
  destruct (replace_txt_suffix (String.length (y +:+ ".txt")) y) as [z ->].
  - rewrite str_length_app. simpl. lia.
  - apply endswith_app.
Qed.

(** X4. The name [write_text] opens for one URL is never the name
    [write_pdf] opens for another, or for the same one: the first ends in
    [.txt] and the second in [.pdf]. *)
Theorem text_and_pdf_names_differ (u1 u2 t f : string) :
  create_file u1 = Ok t →
  pdf_filename u2 = Ok f →
  Str.endswith t ".txt" = true ∧ Str.endswith f ".pdf" = true ∧ t ≠ f.
Proof.
  intros Ht Hf. apply create_file_txt in Ht. apply pdf_filename_pdf in Hf.
  split; [done|]. split; [done|]. intros ->.
  by pose proof (endswith_same_length f ".txt" ".pdf" eq_refl Ht Hf).
Qed.


(** ** download_pdf *)


End Names.

(** ** The processing of a page *)

Lemma text_files_app (evs evs' : list Event) :
  text_files (evs ++ evs') = text_files evs ++ text_files evs'.
Proof. apply omap_app. Qed.

Lemma text_files_logged (us : list string) : text_files (logged us) = [].
Proof. induction us as [|u us IH]; [done|]. exact IH. Qed.

Lemma NoDup_make_tasks (links : list string) : NoDup links → NoDup (make_tasks links).
Proof.
  induction 1 as [|l links Hl Hnd IH]; [constructor|].
  unfold make_tasks. simpl. destruct (route l) as [c|] eqn:Er; [|exact IH].
  constructor; [|exact IH]. intros (l' & Hin & Er')%list_elem_of_omap.
  destruct (route_same_url _ _ Er) as [->| ->];
    destruct (route_same_url _ _ Er') as [[= ->]|[= ->]]; done.
Qed.

Section Pages.
Context {L : Platform} {S : Setup}.

(** Whether it returns or raises, the extraction of the links only
    appends lines to the external-link log. *)
Lemma extract_links_loop_logs (hrefs : list string) (base : string) (acc : gset string)
    (w w' : World) (res : Outcome (gset string)) :
  extract_links_loop hrefs base acc w = (res, w') →
  ∃ outs, w' = mkWorld (visitedlinks w) (events w ++ logged outs).
Proof.
  revert acc w. induction hrefs as [|href rest IH]; intros acc w.
  - simpl. intros [= <- <-]. exists []. destruct w. simpl. by rewrite app_nil_r.
  - simpl. run.
    destruct (urljoin base href) as [full|e].
    2:{ intros [= <- <-]. exists []. destruct w. simpl. by rewrite app_nil_r. }
    destruct (check_link full) as [[|]|e].
    3:{ intros [= <- <-]. exists []. destruct w. simpl. by rewrite app_nil_r. }
    + apply IH.
    + destruct (add_to_extralinks full w) as [[[]|e] w1] eqn:Ea.
      * apply add_to_extralinks_ok in Ea as ->. intros H.
        apply IH in H as [outs ->]. exists (full :: outs). simpl.
        by rewrite <- app_assoc.
      * unfold add_to_extralinks, open_file in Ea.
        destruct (open_ok "extralinks.txt"); [done|]. injection Ea as <- <-.
        intros [= <- <-]. exists []. destruct w. simpl. by rewrite app_nil_r.
Qed.

Lemma process_page_ok (page : soup) (url : string) (w w' : World) :
  process_page page url w = (Ok tt, w') →
  ∃ file text,
    create_file url = Ok file ∧ open_ok file = true ∧
    w' = mkWorld (visitedlinks w) (events w ++ [EWriteText file text]).
Proof.
  unfold process_page, write_text, open_file. run.
  destruct (get_text _) as [t|e1]; [|done].
  destruct (find_main _) as [m|].
  - destruct (get_text_lines m) as [t'|e2]; [|done].
    destruct (create_file url) as [f|e3]; [|done].
    destruct (open_ok f) eqn:Eo; [|done]. intros [= <-]. by exists f, t'.
  - destruct (create_file url) as [f|e3]; [|done].
    destruct (open_ok f) eqn:Eo; [|done]. intros [= <-]. by exists f, t.
Qed.

(** X7. When the processing of a fetched page succeeds, every [href] of
    the page was resolved; the tasks it returns are distinct, one for each
    resolved URL of the domain that [route] accepts, and none else; the
    out-of-domain URLs were logged, in the order of the page, and then one
    text file was written, under the name [create_file] gives the page.
    The dictionary is as it was. *)
Theorem scrape_page_success (url content : string) (w w' : World)
    (tasks : list Coroutine) :
  scrape_page url content w = (Ok tasks, w') →
  ∃ page fulls file text,
    BeautifulSoup content = Ok page ∧
    Forall2 (fun href full => urljoin url href = Ok full) (find_all_a_href page) fulls ∧
    NoDup tasks ∧
    (∀ c, c ∈ tasks ↔
          ∃ full, full ∈ fulls ∧ check_link full = Ok true ∧ route full = Some c) ∧
    create_file url = Ok file ∧
    w' = mkWorld (visitedlinks w)
           (events w ++ logged (filter (fun u => check_link u = Ok false) fulls)
                     ++ [EWriteText file text]).
Proof.
  unfold scrape_page. run.
  destruct (BeautifulSoup content) as [page|e]; [|done].
  destruct (extract_links page url w) as [[links|e] w1] eqn:El; [|done].
  destruct (process_page page url w1) as [[[]|e] w2] eqn:Ep; [|done].
  intros [= <- <-].
  apply extract_links_loop_spec in El as (fulls & Hj & _ & -> & Hl & He).
  apply process_page_ok in Ep as (file & text & Hf & _ & ->).
  exists page, fulls, file, text. split; [done|]. split; [done|].
  split; [apply NoDup_make_tasks, NoDup_elements|]. split; [|split; [done|]].
  - intros c. unfold make_tasks. rewrite list_elem_of_omap. split.
    + intros (full & Hin & Hr). exists full.
      apply elem_of_elements in Hin.
      rewrite (left_id_L ∅ (∪)), elem_of_list_to_set, list_elem_of_filter in Hin.
      destruct Hin. done.
    + intros (full & Hin & Hc & Hr). exists full. split; [|done].
      apply elem_of_elements.
      by rewrite (left_id_L ∅ (∪)), elem_of_list_to_set, list_elem_of_filter.
  - rewrite Hl, He. by rewrite <- app_assoc.
Qed.

(** X8. When the parser or the extraction of the links raises on a
    fetched page, [process_page] is never reached: nothing but lines of
    the external-link log was written, and the page has no text file.
    [scrape] then ends without scheduling a child and without sleeping. *)
Theorem failed_page_leaves_no_text (url content : string) (e : Exn) (w w1 w2 : World)
    (res : Outcome Next) :
  (BeautifulSoup content = Raise e ∧
   w1 = mkWorld (<[url := "success"]> (visitedlinks w)) (events w)) ∨
  (∃ page, BeautifulSoup content = Ok page ∧
     extract_links page url
       (mkWorld (<[url := "success"]> (visitedlinks w)) (events w)) = (Raise e, w1)) →
  scrape_fetched url (Response 200 (Ok content)) w = (res, w2) →
  (∃ outs, w1 = mkWorld (<[url := "success"]> (visitedlinks w))
                        (events w ++ logged outs)) ∧
  text_files (events w2) = text_files (events w) ∧
  (res = Ok Return ∨ ∃ e', res = Raise e').
Proof.
  intros Herr Hrun.
  assert (page_error url content
            (mkWorld (<[url := "success"]> (visitedlinks w)) (events w)) e w1) as Hpe.
  { destruct Herr as [[Hp ->]|(page & Hp & Hl)].
    - by apply parse_error.
    - by eapply links_error. }
  assert (∃ outs, w1 = mkWorld (<[url := "success"]> (visitedlinks w))
                               (events w ++ logged outs)) as [outs ->].
  { destruct Herr as [[_ ->]|(page & _ & Hl)].
    - exists []. simpl. by rewrite app_nil_r.
    - by apply extract_links_loop_logs in Hl. }
  split; [by exists outs|].
  apply scrape_page_raises in Hpe.
  revert Hrun. unfold scrape_fetched, fetch, scrape_except.
  change (200 =? 200) with true. run. rewrite Hpe.
  destruct (open_ok status_file) eqn:Ho.
  - rewrite save_status_ok by done. simpl. intros [= <- <-]. simpl.
    split; [|by left]. rewrite !text_files_app, text_files_logged. simpl.
    by rewrite !app_nil_r.
  - rewrite save_status_fails by done. simpl. intros [= <- <-]. simpl.
    split; [|right; by eexists]. rewrite !text_files_app, text_files_logged. simpl.
    by rewrite !app_nil_r.
Qed.

End Pages.

(** ** Turns of the loop *)

Lemma main_done_insert_other (k : nat) (t : Task) (tasks : list Task) :
  k ≠ 0%nat → main_done (<[k := t]> tasks) = main_done tasks.
Proof. intros Hk. unfold main_done. by rewrite list_lookup_insert_ne. Qed.

Lemma main_done_insert_live (i : nat) (t : Task) (tasks : list Task) :
  (∀ r, t ≠ TDone r) → main_done tasks = false → main_done (<[i := t]> tasks) = false.
Proof.
  intros Ht Hm. destruct i as [|i].
  - destruct tasks as [|t0 tasks]; [done|]. unfold main_done. simpl.
    destruct t; try done. by destruct (Ht result).
  - by rewrite main_done_insert_other.
Qed.

Section MoreTurns.
Context {L : Platform} {S : Setup}.

(** X9. A page that is not the seed and whose request fails in the
    transport: the exception leaves the task of the page, whose URL stays
    [pending]; the parent page catches it at [asyncio.gather], prints it
    under its own URL, saves the dictionary, [pending] entry included, and
    ends normally.  The other tasks are left as they are. *)
Theorem child_transport_error (s : Sys) (i k : nat) (url child : string)
    (kids : list nat) (e : Exn) :
  pool s !! i = Some (TGathering url kids) →
  k ∈ kids →
  k ≠ 0%nat →
  pool s !! k = Some (TNew (CScrape child)) →
  visitedlinks (world s) !! child = None →
  main_done (pool s) = false →
  open_ok status_file = true →
  exec [Start k; Deliver k (TransportError e); Join i (Some k)] s
    = Some (mkSys
              (mkWorld (<[child := "pending"]> (visitedlinks (world s)))
                 (events (world s) ++
                  [EPrint (Visiting child); EGet child;
                   EPrint (ProcessingError url e);
                   ESave status_file (<[child := "pending"]> (visitedlinks (world s)))]))
              (<[i := TDone (Ok tt)]> (<[k := TDone (Raise e)]> (pool s)))).
Proof.
  intros Hi Hin Hk0 Hk Hfresh Hmain Hopen.
  assert (k ≠ i) as Hne by (intros ->; congruence).
  assert (k < length (pool s))%nat as Hlt by (by eapply lookup_lt_Some).
  unfold exec.
  (* the child starts *)
  unfold step at 1. rewrite Hmain. unfold step_task. rewrite Hk.
  rewrite scrape_begin_fresh by done. cbv beta iota zeta.
  (* its request fails *)
  unfold step at 1. cbn [pool world].
  rewrite main_done_insert_other, Hmain by done.
  unfold step_task. cbn [pool world].
  rewrite list_lookup_insert_eq by done.
  change (scrape_fetched child (TransportError e) ?w) with (@Raise Next e, w).
  cbv beta iota zeta. unfold settle.
  rewrite list_insert_insert_eq.
  (* the parent is resumed with the exception *)
  unfold step. cbn [pool world].
  rewrite main_done_insert_other, Hmain by done.
  unfold step_task. cbn [pool world].
  rewrite list_lookup_insert_ne, Hi by done.
  rewrite bool_decide_eq_true_2 by done.
  rewrite list_lookup_insert_eq by done.
  unfold scrape_gathered, scrape_except. run.
  rewrite save_status_ok by done. cbn.
  by rewrite <- !app_assoc.
Qed.

(** X10. A page that was not claimed before, is answered with status 200
    and yields no task: in three turns its entry goes from [pending] to
    [success], its text is saved, and after one sleep of [request_delay]
    the dictionary is written to the status file, which then holds the page
    as [success]. *)
Theorem leaf_page_saved (s : Sys) (i : nat) (url content : string) (w1 : World) :
  pool s !! i = Some (TNew (CScrape url)) →
  visitedlinks (world s) !! url = None →
  main_done (pool s) = false →
  open_ok status_file = true →
  scrape_page url content
    (mkWorld (<[url := "success"]> (visitedlinks (world s)))
             (events (world s) ++ [EPrint (Visiting url); EGet url])) = (Ok [], w1) →
  ∃ s',
    exec [Start i; Deliver i (Response 200 (Ok content)); Wake i] s = Some s' ∧
    pool s' = <[i := TDone (Ok tt)]> (pool s) ∧
    visitedlinks (world s') = <[url := "success"]> (visitedlinks (world s)) ∧
    events (world s')
      = events w1 ++ [ESleep request_delay;
                      ESave status_file (<[url := "success"]> (visitedlinks (world s)))] ∧
    (∀ disk, status_on_disk disk (events (world s'))
             = Some (<[url := "success"]> (visitedlinks (world s)))).
Proof.
  intros Hi Hfresh Hmain Hopen Hpage.
  assert (i < length (pool s))%nat as Hlt by (by eapply lookup_lt_Some).
  pose proof (same_ledger_scrape_page url content
                (mkWorld (<[url := "success"]> (visitedlinks (world s)))
                         (events (world s) ++ [EPrint (Visiting url); EGet url])))
    as Hsame.
  rewrite Hpage in Hsame. unfold same_ledger in Hsame. simpl in Hsame.
  unfold exec.
  unfold step at 1. rewrite Hmain. unfold step_task. rewrite Hi.
  rewrite scrape_begin_fresh by done. cbv beta iota zeta.
  unfold step at 1. cbn [pool world].
  rewrite main_done_insert_live by done.
  unfold step_task. cbn [pool world].
  rewrite list_lookup_insert_eq by done.
  unfold scrape_fetched, fetch, scrape_sleep.
  change (200 =? 200) with true. run. cbn [visitedlinks events app].
  rewrite insert_insert_eq, Hpage. cbv beta iota zeta. unfold settle.
  rewrite list_insert_insert_eq.
  unfold step. cbn [pool world].
  rewrite main_done_insert_live by done.
  unfold step_task. cbn [pool world].
  rewrite list_lookup_insert_eq by done.
  unfold scrape_woken. rewrite save_status_ok by done. cbn [visitedlinks events].
  rewrite list_insert_insert_eq. rewrite Hsame.
  eexists. split; [reflexivity|]. cbn [pool world visitedlinks events].
  split; [done|]. split; [done|]. split; [by rewrite <- app_assoc|].
  intros disk. apply status_on_disk_save.
Qed.

End MoreTurns.

(** ** chatbot.py: the texts that are loaded *)

Lemma load_loop_ok (fs : Folder) (d : string) (names : list string)
    (acc texts : list string) :
  load_loop fs d names acc = Ok texts ↔
  ∃ cs, Forall2 (fun n c => read_text fs (path_join d n) = Ok c)
                (filter is_txt names) cs ∧
        texts = acc ++ cs.
Proof.
  revert acc. induction names as [|n names IH]; intros acc; simpl.
  - split.
    + intros [= <-]. exists []. split; [constructor|]. by rewrite app_nil_r.
    + intros (cs & Hcs & ->). apply Forall2_nil_inv_l in Hcs as ->.
      by rewrite app_nil_r.
  - rewrite filter_cons. destruct (decide (is_txt n)) as [Hn|Hn].
    + unfold is_txt in Hn. rewrite Hn.
      destruct (read_text fs (path_join d n)) as [c|e] eqn:Er; simpl.
      * rewrite IH. split.
        -- intros (cs & Hcs & ->). exists (c :: cs). split; [by constructor|].
           by rewrite <- app_assoc.
        -- intros (cs & Hcs & ->).
           apply Forall2_cons_inv_l in Hcs as (c' & cs' & Hc & Hcs & ->).
           exists cs'. split; [done|]. rewrite <- app_assoc. simpl. congruence.
      * split; [done|]. intros (cs & Hcs & _).
        apply Forall2_cons_inv_l in Hcs as (c' & cs' & Hc & _). congruence.
    + unfold is_txt in Hn. apply not_true_is_false in Hn. rewrite Hn. apply IH.
Qed.

Lemma load_loop_ext (fs fs' : Folder) (d : string) (names : list string)
    (acc : list string) :
  (∀ n, n ∈ names → is_txt n →
        read_text fs (path_join d n) = read_text fs' (path_join d n)) →
  load_loop fs d names acc = load_loop fs' d names acc.
Proof.
  revert acc. induction names as [|n names IH]; intros acc Hr; [done|]. simpl.
  destruct (Str.endswith n ".txt") eqn:E.
  - rewrite <- (Hr n) by (done || apply list_elem_of_here).
    destruct (read_text fs (path_join d n)) as [c|e]; simpl; [|done].
    apply IH. intros m Hm. apply Hr. by apply list_elem_of_further.
  - apply IH. intros m Hm. apply Hr. by apply list_elem_of_further.
Qed.

Lemma load_loop_raises (fs : Folder) (d : string) (before after acc : list string)
    (n : string) (e : Exn) :
  Forall (fun m => is_txt m → ∃ c, read_text fs (path_join d m) = Ok c) before →
  is_txt n →
  read_text fs (path_join d n) = Raise e →
  load_loop fs d (before ++ n :: after) acc = Raise e.
Proof.
  intros Hb Hn Hr. revert acc. induction Hb as [|m before Hm Hb IH]; intros acc; simpl.
  - rewrite Hn, Hr. done.
  - destruct (Str.endswith m ".txt") eqn:E; [|apply IH].
    destruct (Hm E) as [c ->]. simpl. apply IH.
Qed.

Section Chatbot.
Context {L : Platform} {S : Setup}.

(** X11. [load_and_process_files] returns, in the order of the listing,
    the contents of exactly the entries whose name ends in [.txt], read
    from the folder; it succeeds exactly when the folder can be listed and
    each of these can be read.  Run on the crawler's folder, it returns the
    text that [write_text] saved for a URL whenever the listing shows that
    file. *)
Theorem load_and_process_files_texts (fs : Folder) (texts : list string) :
  (load_and_process_files fs data_folder = Ok texts ↔
   ∃ names, listdir fs data_folder = Ok names ∧
            Forall2 (fun n c => read_text fs (path_join data_folder n) = Ok c)
                    (filter is_txt names) texts) ∧
  (∀ names url p,
     load_and_process_files fs data_folder = Ok texts →
     listdir fs data_folder = Ok names →
     urlparse url = Ok p →
     file_stem p +:+ ".txt" ∈ names →
     ∃ file c, create_file url = Ok file ∧ read_text fs file = Ok c ∧ c ∈ texts).
Proof.
  assert (load_and_process_files fs data_folder = Ok texts ↔
          ∃ names, listdir fs data_folder = Ok names ∧
                   Forall2 (fun n c => read_text fs (path_join data_folder n) = Ok c)
                           (filter is_txt names) texts) as Hiff.
  { unfold load_and_process_files.
    destruct (listdir fs data_folder) as [names|e]; simpl.
    - rewrite load_loop_ok. split.
      + intros (cs & Hcs & ->). by exists names.
      + intros (names' & [= <-] & Hcs). by exists texts.
    - split; [done|]. by intros (names' & ? & _). }
  split; [exact Hiff|].
  intros names url p Hload Hlist Hp Hin.
  apply Hiff in Hload as (names' & Hlist' & Hall).
  rewrite Hlist in Hlist'. injection Hlist' as <-.
  assert (file_stem p +:+ ".txt" ∈ filter is_txt names) as Hf.
  { apply list_elem_of_filter. split; [|done]. apply endswith_app. }
  apply list_elem_of_lookup in Hf as [j Hj].
  destruct (Forall2_lookup_l _ _ _ _ _ Hall Hj) as (c & Hc & Hread).
  exists (path_join data_folder (file_stem p +:+ ".txt")), c.
  split; [by apply create_file_stem|]. split; [done|].
  apply list_elem_of_lookup. by exists j.
Qed.

(** X12. [load_and_process_files] has no [try]: when the folder cannot be
    listed, or when a file ending in [.txt] cannot be read, the exception
    leaves it and no text is returned.  The files of other names, the
    PDFs and the status file among them, are never opened: what they hold,
    and whether they can be read, does not change the result. *)
Theorem load_and_process_files_errors (fs : Folder) (d : string) :
  (∀ e, listdir fs d = Raise e → load_and_process_files fs d = Raise e) ∧
  (∀ before n after e,
     listdir fs d = Ok (before ++ n :: after) →
     Forall (fun m => is_txt m → ∃ c, read_text fs (path_join d m) = Ok c) before →
     is_txt n →
     read_text fs (path_join d n) = Raise e →
     load_and_process_files fs d = Raise e) ∧
  (∀ fs',
     listdir fs' d = listdir fs d →
     (∀ n, is_txt n → read_text fs' (path_join d n) = read_text fs (path_join d n)) →
     load_and_process_files fs' d = load_and_process_files fs d).
Proof.
  split; [|split].
  - intros e H. unfold load_and_process_files. by rewrite H.
  - intros before n after e Hl Hb Hn Hr. unfold load_and_process_files. rewrite Hl.
    simpl. by apply load_loop_raises.
  - intros fs' Hl Hr. unfold load_and_process_files. rewrite Hl.
    destruct (listdir fs d) as [names|e]; [|done]. simpl.
    apply load_loop_ext. intros n _ Hn. by apply Hr.
Qed.

End Chatbot.

(** ** The crawl stays inside the domain *)

Global Instance same_requests_preorder : PreOrder same_requests.
Proof.
  split; [done|]. unfold same_requests. intros x y z Hxy Hyz. congruence.
Qed.

Lemma requests_app (evs evs' : list Event) :
  requests (evs ++ evs') = requests evs ++ requests evs'.
Proof. apply omap_app. Qed.

Lemma same_requests_plain (e : Event) : is_plain e = true → keeps same_requests (emit e).
Proof.
  intros He w. unfold same_requests. simpl. rewrite requests_app.
  destruct e as [[| |]| | | | | |]; try done; apply app_nil_r.
Qed.

Lemma same_requests_set_status (url v : string) : keeps same_requests (set_status url v).
Proof. by intros w. Qed.

Section Scoped.
Context {L : Platform} {S : Setup}.

Lemma same_requests_save_status : keeps same_requests save_status.
Proof.
  intros w. destruct (open_ok status_file) eqn:Ho.
  - rewrite save_status_ok by done. unfold same_requests. simpl.
    rewrite requests_app. apply app_nil_r.
  - rewrite save_status_fails by done. reflexivity.
Qed.

Lemma same_requests_scrape_fetched (url : string) (r : Reply) :
  keeps same_requests (scrape_fetched url r).
Proof.
  apply turn_scrape_fetched; [apply _|apply same_requests_plain
    |apply same_requests_save_status| |]; intros u; apply same_requests_set_status.
Qed.

Lemma same_requests_scrape_gathered (url : string) (res : Outcome unit) :
  keeps same_requests (scrape_gathered url res).
Proof.
  apply turn_scrape_gathered;
    [apply _|apply same_requests_plain|apply same_requests_save_status].
Qed.

Lemma same_requests_download_pdf (url : string) (r : Reply) :
  keeps same_requests (download_pdf url r).
Proof.
  apply turn_download_pdf; [apply _|apply same_requests_plain| |];
    intros u; apply same_requests_set_status.
Qed.

(** [scrape] stops at [asyncio.gather] only with the tasks of a page that
    was answered with status 200 and processed without error. *)
Lemma scrape_fetched_gather (url : string) (r : Reply) (w w' : World)
    (cs : list Coroutine) :
  scrape_fetched url r w = (Ok (Gather cs), w') →
  ∃ content,
    r = Response 200 (Ok content) ∧
    scrape_page url content (mkWorld (<[url := "success"]> (visitedlinks w)) (events w))
      = (Ok cs, w').
Proof.
  unfold scrape_fetched, fetch, scrape_sleep, scrape_except. run.
  destruct r as [status body|e]; [|done].
  destruct (Z.eqb_spec status 200) as [->|Hne]; [|done].
  destruct body as [content|e]; [|done].
  destruct (scrape_page url content _) as [[[|c cs']|e] w1] eqn:E.
  - done.
  - intros [= <- <-]. by exists content.
  - destruct (save_status _) as [[[]|e'] w2]; done.
Qed.

Lemma scrape_gathered_no_gather (url : string) (res : Outcome unit) (w w' : World)
    (cs : list Coroutine) :
  scrape_gathered url res w ≠ (Ok (Gather cs), w').
Proof.
  unfold scrape_gathered, scrape_sleep, scrape_except. run.
  destruct res as [[]|e]; [done|].
  destruct (save_status _) as [[[]|e'] w2]; done.
Qed.

Lemma settle_scoped (i : nat) (url : string) (tasks : list Task) (res : Outcome Next) :
  Forall task_scoped tasks →
  (∀ cs, res = Ok (Gather cs) → Forall (fun c => task_scoped (TNew c)) cs) →
  Forall task_scoped (settle i url tasks res).
Proof.
  intros Ht Hcs. destruct res as [[|cs|]|e]; simpl; try by apply Forall_insert.
  apply Forall_insert; [|done]. apply Forall_app. split; [done|].
  apply Forall_fmap. by apply Hcs.
Qed.

Lemma tasks_of_page_scoped (url content : string) (w w' : World) (cs : list Coroutine) :
  scrape_page url content w = (Ok cs, w') →
  Forall (fun c => task_scoped (TNew c)) cs.
Proof.
  intros H. apply scrape_page_success in H as (page & fulls & f & t & _ & _ & _ & Hc & _).
  apply Forall_forall. intros c (full & _ & Hin & Hr)%Hc.
  destruct (route_same_url _ _ Hr) as [-> | ->]; by right.
Qed.

Lemma step_scoped (a : Action) (s s' : Sys) :
  all_scoped s → step a s = Some s' → all_scoped s'.
Proof.
  intros [Hp Hr]. unfold step, step_task.
  destruct (main_done (pool s)); [done|].
  destruct a as [i|i r|i [k|]|i];
    destruct (pool s !! i) as [[[url|url]|url|url kids|url|url|res]|] eqn:Ei; try done.
  - assert (scoped url) as Hu by apply (Forall_lookup_1 _ _ _ _ Hp Ei).
    destruct (visitedlinks (world s) !! url) as [v|] eqn:E.
    + rewrite scrape_begin_known by eauto. intros [= <-].
      split; [by apply Forall_insert|done].
    + rewrite scrape_begin_fresh by done. intros [= <-].
      split; [by apply Forall_insert|]. simpl.
      rewrite requests_app. apply Forall_app. split; [done|]. simpl.
      constructor; [done|constructor].
  - assert (scoped url) as Hu by apply (Forall_lookup_1 _ _ _ _ Hp Ei).
    intros [= <-]. split; [by apply Forall_insert|]. simpl.
    rewrite requests_app. apply Forall_app. split; [done|]. simpl.
      constructor; [done|constructor].
  - pose proof (same_requests_scrape_fetched url r (world s)) as Hq.
    destruct (scrape_fetched url r (world s)) as [res w'] eqn:E. intros [= <-].
    split; simpl.
    + apply settle_scoped; [done|]. intros cs ->.
      apply scrape_fetched_gather in E as (content & _ & E).
      by eapply tasks_of_page_scoped.
    + unfold same_requests in Hq. simpl in Hq. by rewrite Hq.
  - pose proof (same_requests_download_pdf url r (world s)) as Hq.
    destruct (download_pdf url r (world s)) as [res w'] eqn:E. intros [= <-].
    split; simpl; [by apply Forall_insert|].
    unfold same_requests in Hq. simpl in Hq. by rewrite Hq.
  - destruct (bool_decide (k ∈ kids)); [|done].
    destruct (pool s !! k) as [[| | | | |[|e]]|]; try done.
    pose proof (same_requests_scrape_gathered url (Raise e) (world s)) as Hq.
    destruct (scrape_gathered url (Raise e) (world s)) as [res w'] eqn:E. intros [= <-].
    split; simpl.
    + apply settle_scoped; [done|]. intros cs ->.
      by apply scrape_gathered_no_gather in E.
    + unfold same_requests in Hq. simpl in Hq. by rewrite Hq.
  - destruct (forallb _ kids); [|done].
    pose proof (same_requests_scrape_gathered url (Ok tt) (world s)) as Hq.
    destruct (scrape_gathered url (Ok tt) (world s)) as [res w'] eqn:E. intros [= <-].
    split; simpl.
    + apply settle_scoped; [done|]. intros cs ->.
      by apply scrape_gathered_no_gather in E.
    + unfold same_requests in Hq. simpl in Hq. by rewrite Hq.
  - pose proof (same_requests_save_status (world s)) as Hq.
    unfold scrape_woken.
    destruct (save_status (world s)) as [res w'] eqn:E. intros [= <-].
    split; simpl; [by apply Forall_insert|].
    unfold same_requests in Hq. simpl in Hq. by rewrite Hq.
Qed.

Lemma exec_scoped (acts : list Action) (s s' : Sys) :
  all_scoped s → exec acts s = Some s' → all_scoped s'.
Proof.
  revert s. induction acts as [|a acts IH]; intros s Hs; simpl.
  - by intros [= <-].
  - destruct (step a s) as [s1|] eqn:E; [|done]. apply IH. by eapply step_scoped.
Qed.

(** X13. Whatever the pages hold and whatever the schedule, the crawl
    requests only the seed and URLs for which [check_link] answers true,
    and every task that is waiting to request a URL, or for the answer to
    its request, deals with such a URL. *)
Theorem requests_in_domain (disk : option (gmap string string)) (acts : list Action)
    (s : Sys) :
  exec acts (main disk) = Some s →
  (∀ url, EGet url ∈ events (world s) → url = mainurl ∨ check_link url = Ok true) ∧
  (∀ i url, pool s !! i = Some (TFetching url) ∨ pool s !! i = Some (TGetting url) ∨
            pool s !! i = Some (TNew (CScrape url)) ∨
            pool s !! i = Some (TNew (CDownload url)) →
            url = mainurl ∨ check_link url = Ok true).
Proof.
  intros H. apply exec_scoped in H as [Hp Hr].
  - split.
    + intros url Hin. apply (proj1 (Forall_forall _ _) Hr).
      unfold requests. apply list_elem_of_omap. by exists (EGet url).
    + intros i url Hi.
      destruct Hi as [Hi|[Hi|[Hi|Hi]]]; apply (Forall_lookup_1 _ _ _ _ Hp Hi).
  - split; [|constructor]. constructor; [by left|constructor].
Qed.

End Scoped.

(** ** The further properties at work *)

Module MoreRuns.
Import Sample Shelf.

#[local] Existing Instance sample_platform.

Example waiting_for_b_reached :
  exec (S:=wsca) [Start 0%nat; Deliver 0%nat (Response 200 (Ok "href=/b"))]
    (main (S:=wsca) None) = Some waiting_for_b.
Proof. vm_compute. reflexivity. Qed.

Lemma known_seed_ends_crawl_witness :
  exec (S:=wsca) [Start 0%nat] (main (S:=wsca) (Some {[root := "pending"]}))
    = Some (mkSys (mkWorld {[root := "pending"]} []) [TDone (Ok tt)]) ∧
  world (mkSys (mkWorld {[root := "pending"]} []) [TDone (Ok tt)])
    = mkWorld {[root := "pending"]} [].
Proof.
  assert (exec (S:=wsca) [Start 0%nat] (main (S:=wsca) (Some {[root := "pending"]}))
          = Some (mkSys (mkWorld {[root := "pending"]} []) [TDone (Ok tt)])) as Hexec
    by (vm_compute; reflexivity).
  split; [exact Hexec|].
  destruct (known_seed_ends_crawl (S:=wsca) (Some {[root := "pending"]}) _ _
              (ex_intro _ "pending" (lookup_singleton_eq _ _)) Hexec) as [H _].
  exact H.
Defined.

Lemma saved_ledger_has_seed_witness :
  ∃ s, exec (S:=wsca) leaf_crawl (main (S:=wsca) None) = Some s ∧
       ESave "wscadata/linkscraped.json" {[root := "success"]} ∈ events (world s) ∧
       root ∈ dom ({[root := "success"]} : gmap string string).
Proof.
  destruct (exec (S:=wsca) leaf_crawl (main (S:=wsca) None)) as [s|] eqn:Hexec;
    [|vm_compute in Hexec; discriminate].
  assert (ESave "wscadata/linkscraped.json" {[root := "success"]} ∈ events (world s))
    as Hsave.
  { vm_compute in Hexec. injection Hexec as <-. simpl.
    do 4 apply list_elem_of_further. apply list_elem_of_here. }
  exists s. split; [reflexivity|]. split; [exact Hsave|].
  by destruct (saved_ledger_has_seed (S:=wsca) None leaf_crawl s _ _ Hexec Hsave)
    as [H _].
Defined.

Lemma ledger_values_witness :
  ∃ s, exec (S:=wsca) leaf_crawl (main (S:=wsca) None) = Some s ∧
       visitedlinks (world s) !! root = Some "success" ∧
       (load_status None !! root = Some "success" ∨ "success" = "pending" ∨
        "success" = "success" ∨ "success" = "failed").
Proof.
  destruct (exec (S:=wsca) leaf_crawl (main (S:=wsca) None)) as [s|] eqn:Hexec;
    [|vm_compute in Hexec; discriminate].
  assert (visitedlinks (world s) !! root = Some "success") as Hv.
  { vm_compute in Hexec. injection Hexec as <-. vm_compute. reflexivity. }
  exists s. split; [reflexivity|]. split; [exact Hv|].
  exact (ledger_values (S:=wsca) None leaf_crawl s root "success" Hexec Hv).
Defined.

Lemma text_and_pdf_names_differ_witness :
  create_file (S:=host_tld) "https://host.tld/a.pdf" = Ok "data/host.tld_a.pdf.txt" ∧
  pdf_filename (S:=host_tld) "https://host.tld/a.pdf" = Ok "data/host.tld_a.pdf.pdf" ∧
  "data/host.tld_a.pdf.txt" ≠ "data/host.tld_a.pdf.pdf".
Proof.
  assert (create_file (S:=host_tld) "https://host.tld/a.pdf" = Ok "data/host.tld_a.pdf.txt")
    as Ht by (vm_compute; reflexivity).
  assert (pdf_filename (S:=host_tld) "https://host.tld/a.pdf" = Ok "data/host.tld_a.pdf.pdf")
    as Hf by (vm_compute; reflexivity).
  split; [exact Ht|]. split; [exact Hf|].
  apply (text_and_pdf_names_differ (S:=host_tld) _ _ _ _ Ht Hf).
Defined.


Lemma scrape_page_success_witness :
  ∃ w',
    scrape_page (S:=wsca) root "href=/b href=http://o.org/x href=/b" (mkWorld ∅ [])
      = (Ok [CScrape about_b], w') ∧
    NoDup [CScrape about_b].
Proof.
  destruct (scrape_page (S:=wsca) root "href=/b href=http://o.org/x href=/b"
              (mkWorld ∅ [])) as [res w'] eqn:Hrun.
  assert (res = Ok [CScrape about_b]) as ->.
  { vm_compute in Hrun. by injection Hrun as <- _. }
  exists w'. split; [reflexivity|].
  by destruct (scrape_page_success (S:=wsca) _ _ _ _ _ Hrun)
    as (page & fulls & file & text & _ & _ & Hnd & _).
Defined.

Lemma failed_page_leaves_no_text_witness :
  ∃ res w2,
    scrape_fetched (S:=wsca) root (Response 200 (Ok broken_page)) (world fetching_root)
      = (res, w2) ∧
    text_files (events w2) = text_files (events (world fetching_root)).
Proof.
  destruct (scrape_fetched (S:=wsca) root (Response 200 (Ok broken_page))
              (world fetching_root)) as [res w2] eqn:Hrun.
  exists res, w2. split; [reflexivity|].
  refine (proj1 (proj2 (failed_page_leaves_no_text (S:=wsca) root broken_page
            "ValueError: Invalid IPv6 URL" (world fetching_root)
            (mkWorld {[root := "success"]} [EPrint (Visiting root); EGet root])
            w2 res _ Hrun))).
  right. eexists. split; [reflexivity|].
  vm_compute. reflexivity.
Defined.

Lemma child_transport_error_witness :
  exec (S:=wsca)
    [Start 1%nat; Deliver 1%nat (TransportError "ClientConnectorError");
     Join 0%nat (Some 1%nat)] waiting_for_b
  = Some (mkSys
            (mkWorld {[root := "success"; about_b := "pending"]}
               [EPrint (Visiting root); EGet root;
                EWriteText "wscadata/www.wscacademy.org_index.txt" "href=/b";
                EPrint (Visiting about_b); EGet about_b;
                EPrint (ProcessingError root "ClientConnectorError");
                ESave "wscadata/linkscraped.json"
                  {[root := "success"; about_b := "pending"]}])
            [TDone (Ok tt); TDone (Raise "ClientConnectorError")]).
Proof.
  rewrite (child_transport_error (S:=wsca) waiting_for_b 0%nat 1%nat root about_b
             [1%nat] "ClientConnectorError").
  - vm_compute. reflexivity.
  - reflexivity.
  - apply list_elem_of_here.
  - discriminate.
  - reflexivity.
  - vm_compute. reflexivity.
  - reflexivity.
  - reflexivity.
Defined.

Lemma leaf_page_saved_witness :
  ∃ s,
    exec (S:=wsca) leaf_crawl (main (S:=wsca) None) = Some s ∧
    pool s = [TDone (Ok tt)] ∧
    status_on_disk None (events (world s)) = Some {[root := "success"]}.
Proof.
  destruct (leaf_page_saved (S:=wsca) (main (S:=wsca) None) 0%nat root "Welcome"
              (mkWorld {[root := "success"]}
                 [EPrint (Visiting root); EGet root;
                  EWriteText "wscadata/www.wscacademy.org_index.txt" "Welcome"]))
    as (s & Hexec & Hpool & Hl & _ & Hdisk).
  - reflexivity.
  - vm_compute. reflexivity.
  - reflexivity.
  - reflexivity.
  - vm_compute. reflexivity.
  - exists s. split; [exact Hexec|]. split; [exact Hpool|].
    rewrite (Hdisk None). reflexivity.
Defined.

Lemma load_and_process_files_texts_witness :
  load_and_process_files folder "wscadata" = Ok ["Welcome"] ∧
  ∃ file c, create_file (S:=wsca) root = Ok file ∧ read_text folder file = Ok c ∧
            c ∈ ["Welcome"].
Proof.
  assert (load_and_process_files folder "wscadata" = Ok ["Welcome"]) as Hload
    by (vm_compute; reflexivity).
  split; [exact Hload|].
  destruct (load_and_process_files_texts (S:=wsca) folder ["Welcome"]) as [_ H].
  eapply (H _ root).
  - exact Hload.
  - vm_compute. reflexivity.
  - vm_compute. reflexivity.
  - apply list_elem_of_here.
Defined.

Lemma load_and_process_files_errors_witness :
  load_and_process_files bad_folder "wscadata" = Raise "UnicodeDecodeError".
Proof.
  destruct (load_and_process_files_errors bad_folder "wscadata") as (_ & H & _).
  apply (H ["www.wscacademy.org_index.txt"] "www.wscacademy.org_b.txt" []).
  - reflexivity.
  - constructor; [|constructor]. intros _. by exists "Welcome".
  - reflexivity.
  - reflexivity.
Defined.

Lemma requests_in_domain_witness :
  ∃ s,
    exec (S:=wsca)
      [Start 0%nat; Deliver 0%nat (Response 200 (Ok "href=/b href=http://o.org/x"));
       Start 1%nat] (main (S:=wsca) None) = Some s ∧
    requests (events (world s)) = [root; about_b] ∧
    (∀ url, EGet url ∈ events (world s) →
            url = root ∨ check_link (S:=wsca) url = Ok true).
Proof.
  destruct (exec (S:=wsca)
      [Start 0%nat; Deliver 0%nat (Response 200 (Ok "href=/b href=http://o.org/x"));
       Start 1%nat] (main (S:=wsca) None)) as [s|] eqn:Hexec;
    [|vm_compute in Hexec; discriminate].
  exists s. split; [reflexivity|].
  split; [vm_compute in Hexec; injection Hexec as <-; vm_compute; reflexivity|].
  exact (proj1 (requests_in_domain (S:=wsca) None _ s Hexec)).
Defined.

End MoreRuns.
